(** * Persistence and synchronisation layer ([project/database.py])

    A shallow embedding of the [Database] and [TradeLog] classes: the
    unit-of-work primitive [db_session], the event relay ([_api_session],
    [send_update]), asset and pair maintenance ([set_coins]), the retention
    engine ([prune_value_history]), the batched writers and the trade
    lifecycle.

    Python code runs in a state-and-exception monad over a [World] that
    holds the durable store, the thread-local SQLAlchemy session, the
    socket.io client, the in-memory ratio matrix and an event trace.  An
    exception leaves the world as it is at the point of the raise. *)

From Stdlib Require Import ZArith List String Ascii Bool Lia PrimFloat.
Import ListNotations.
Local Open Scope string_scope.
Local Open Scope list_scope.
Local Open Scope Z_scope.

#[local] Arguments String.eqb : simpl never.
#[local] Arguments String.leb : simpl never.
#[local] Arguments Z.add : simpl never.

(* ===================================================================== *)
(** ** Dates and times *)
(* ===================================================================== *)

Module Calendar.

(** [datetime.datetime]: a naive timestamp, compared field by field. *)
Record datetime := mk_datetime {
  year : Z; month : Z; day : Z;
  hour : Z; minute : Z; second : Z; microsecond : Z
}.

Definition dt_key (d : datetime) : list Z :=
  [year d; month d; day d; hour d; minute d; second d; microsecond d].

Fixpoint lex_compare (a b : list Z) : comparison :=
  match a, b with
  | [], [] => Eq
  | [], _ :: _ => Lt
  | _ :: _, [] => Gt
  | x :: a', y :: b' =>
      match x ?= y with
      | Eq => lex_compare a' b'
      | c => c
      end
  end.

Definition dt_compare (a b : datetime) : comparison :=
  lex_compare (dt_key a) (dt_key b).

(** [a < b] on timestamps, as in [CoinValue.datetime < time_diff]. *)
Definition dt_ltb (a b : datetime) : bool :=
  match dt_compare a b with Lt => true | _ => false end.

Definition dt_leb (a b : datetime) : bool := negb (dt_ltb b a).

Definition is_leap (y : Z) : bool :=
  ((y mod 4 =? 0) && negb (y mod 100 =? 0)) || (y mod 400 =? 0).

(** [calendar.monthrange(y, m)[1]]. *)
Definition days_in_month (y m : Z) : Z :=
  if m =? 2 then (if is_leap y then 29 else 28)
  else if (m =? 4) || (m =? 6) || (m =? 9) || (m =? 11) then 30
  else 31.

Fixpoint days_before_month_aux (y : Z) (n : nat) : Z :=
  match n with
  | O => 0
  | S k => days_before_month_aux y k + days_in_month y (Z.of_nat (S k))
  end.

(** Days of the year before the first of month [m]. *)
Definition days_before_month (y m : Z) : Z :=
  days_before_month_aux y (Z.to_nat (m - 1)).

(** 1-based day of the year. *)
Definition day_of_year (d : datetime) : Z :=
  days_before_month (year d) (month d) + day d.

(** [date.toordinal()]: proleptic Gregorian day number, 0001-01-01 is 1. *)
Definition toordinal (d : datetime) : Z :=
  let y := year d - 1 in
  y * 365 + y / 4 - y / 100 + y / 400 + day_of_year d.

(** [date.weekday()]: Monday is 0. *)
Definition weekday (d : datetime) : Z := (toordinal d + 6) mod 7.

Definition prev_day (d : datetime) : datetime :=
  if 1 <? day d then
    mk_datetime (year d) (month d) (day d - 1)
                (hour d) (minute d) (second d) (microsecond d)
  else if 1 <? month d then
    mk_datetime (year d) (month d - 1) (days_in_month (year d) (month d - 1))
                (hour d) (minute d) (second d) (microsecond d)
  else
    mk_datetime (year d - 1) 12 31
                (hour d) (minute d) (second d) (microsecond d).

(** [dt - relativedelta(years=ys, months=ms, days=ds)] for the non-negative
    deltas the program uses ([ms <= 12]): the year and the month move first,
    the day is clipped to the length of the month reached, then whole days
    are taken off as a [timedelta]. *)
Definition sub_relativedelta (d : datetime) (ys ms : Z) (ds : nat) : datetime :=
  let y0 := year d - ys in
  let m0 := month d - ms in
  let y1 := if m0 <? 1 then y0 - 1 else y0 in
  let m1 := if m0 <? 1 then m0 + 12 else m0 in
  let d1 := Z.min (days_in_month y1 m1) (day d) in
  Nat.iter ds prev_day
    (mk_datetime y1 m1 d1 (hour d) (minute d) (second d) (microsecond d)).

Definition digit (n : Z) : ascii := ascii_of_nat (48 + Z.to_nat (n mod 10)).

(** [n] printed in decimal on at least [w] digits, zero padded. *)
Fixpoint zero_pad (w : nat) (n : Z) : string :=
  match w with
  | O => ""
  | S k => (zero_pad k (n / 10) ++ String (digit n) "")%string
  end.

(** SQLite's [strftime(format, value)] for the directives in use:
    [%H] hour, [%Y] year, [%j] day of the year, [%W] week of the year with
    the first Monday opening week 1. *)
Fixpoint strftime (fmt : string) (d : datetime) : string :=
  match fmt with
  | EmptyString => ""
  | String "%" (String c rest) =>
      ((if Ascii.eqb c "H" then zero_pad 2 (hour d)
        else if Ascii.eqb c "Y" then zero_pad 4 (year d)
        else if Ascii.eqb c "j" then zero_pad 3 (day_of_year d)
        else if Ascii.eqb c "W"
             then zero_pad 2 ((day_of_year d - 1 + 7 - weekday d) / 7)
        else String "%" (String c ""))
       ++ strftime rest d)%string
  | String c rest => String c (strftime rest d)
  end.

End Calendar.
Export Calendar.

(* ===================================================================== *)
(** ** Data model ([project/models]) *)
(* ===================================================================== *)

(** The granularity tags used by [prune_value_history]. *)
Inductive Interval := MINUTELY | HOURLY | DAILY | WEEKLY.

(** Modelled from the spec: the [TradeState] enumeration of the absent
    [models/trade.py]; the source names [ORDERED] and [COMPLETE], the spec
    names the entry state [INITIAL]. *)
Inductive TradeState := INITIAL | ORDERED | COMPLETE.

Definition Interval_eqb (a b : Interval) : bool :=
  match a, b with
  | MINUTELY, MINUTELY | HOURLY, HOURLY | DAILY, DAILY | WEEKLY, WEEKLY => true
  | _, _ => false
  end.

(** [Coin]: the symbol is the primary key ([session.get(Coin, symbol)]). *)
Record Coin := mk_Coin {
  coin_symbol : string;
  coin_enabled : bool
}.

(** Integer primary keys are [None] on a Python object until the row has
    been flushed to the store. *)
Record Pair := mk_Pair {
  pair_id : option Z;
  pair_from_coin_id : string;
  pair_to_coin_id : string;
  pair_ratio : option float;
  pair_enabled : bool
}.

Record CurrentCoin := mk_CurrentCoin {
  cc_id : option Z;
  cc_coin_id : string;
  cc_datetime : datetime
}.

Record CoinValue := mk_CoinValue {
  cv_id : Z;
  cv_coin_id : string;
  cv_balance : float;
  cv_usd_price : float;
  cv_btc_price : float;
  cv_interval : Interval;
  cv_datetime : datetime
}.

Record ScoutHistory := mk_ScoutHistory {
  sh_id : Z;
  sh_pair_id : option Z;
  sh_ratio_diff : option float;
  sh_target_ratio : option float;
  sh_current_coin_price : option float;
  sh_other_coin_price : option float;
  sh_datetime : option datetime
}.

(** The [LogScout] named tuple. *)
Record LogScout := mk_LogScout {
  ls_pair_id : Z;
  ls_ratio_diff : float;
  ls_target_ratio : float;
  ls_coin_price : float;
  ls_optional_coin_price : float
}.

Record Trade := mk_Trade {
  trade_id : option Z;
  trade_alt_coin_id : option string;
  trade_crypto_coin_id : option string;
  trade_selling : option bool;
  trade_state : option TradeState;
  trade_alt_starting_balance : option float;
  trade_alt_trade_amount : option float;
  trade_crypto_starting_balance : option float;
  trade_crypto_trade_amount : option float;
  trade_datetime : option datetime
}.

(** A mapped object handed to [session.add] or to [send_update]. *)
Inductive Model :=
| CoinModel (c : Coin)
| PairModel (p : Pair)
| CurrentCoinModel (cc : CurrentCoin)
| TradeModel (t : Trade).

(** Identity-map keys: mapped class and primary key. *)
Inductive Key :=
| CoinKey (s : string)
| PairKey (i : Z)
| CurrentCoinKey (i : Z)
| TradeKey (i : Z).

Definition Key_eqb (a b : Key) : bool :=
  match a, b with
  | CoinKey s, CoinKey t => String.eqb s t
  | PairKey i, PairKey j => i =? j
  | CurrentCoinKey i, CurrentCoinKey j => i =? j
  | TradeKey i, TradeKey j => i =? j
  | _, _ => false
  end.

(** The tables of [sqlite:///data/crypto_trading.db], rows in rowid order. *)
Record Store := mk_Store {
  coins : list Coin;
  pairs : list Pair;
  current_coins : list CurrentCoin;
  coin_values : list CoinValue;
  scout_history : list ScoutHistory;
  trades : list Trade
}.

Definition empty_store : Store := mk_Store [] [] [] [] [] [].

Definition with_coins (f : list Coin -> list Coin) (s : Store) : Store :=
  mk_Store (f (coins s)) (pairs s) (current_coins s) (coin_values s)
           (scout_history s) (trades s).
Definition with_pairs (f : list Pair -> list Pair) (s : Store) : Store :=
  mk_Store (coins s) (f (pairs s)) (current_coins s) (coin_values s)
           (scout_history s) (trades s).
Definition with_current_coins (f : list CurrentCoin -> list CurrentCoin)
    (s : Store) : Store :=
  mk_Store (coins s) (pairs s) (f (current_coins s)) (coin_values s)
           (scout_history s) (trades s).
Definition with_coin_values (f : list CoinValue -> list CoinValue)
    (s : Store) : Store :=
  mk_Store (coins s) (pairs s) (current_coins s) (f (coin_values s))
           (scout_history s) (trades s).
Definition with_scout_history (f : list ScoutHistory -> list ScoutHistory)
    (s : Store) : Store :=
  mk_Store (coins s) (pairs s) (current_coins s) (coin_values s)
           (f (scout_history s)) (trades s).
Definition with_trades (f : list Trade -> list Trade) (s : Store) : Store :=
  mk_Store (coins s) (pairs s) (current_coins s) (coin_values s)
           (scout_history s) (f (trades s)).

(** The rowid SQLite gives the next inserted row: one more than the
    greatest in the table. *)
Definition next_rowid (ids : list Z) : Z := 1 + fold_right Z.max 0 ids.

Definition opt_ids {A} (id : A -> option Z) (rows : list A) : list Z :=
  flat_map (fun r => match id r with Some i => [i] | None => [] end) rows.

(* ===================================================================== *)
(** ** The world the program runs in *)
(* ===================================================================== *)

(** The thread-local [Session] behind [scoped_session]: [session_factory()]
    hands out this one object on every call. *)
Record Session := mk_Session {
  txn : option Store;        (** view of the transaction in progress *)
  pending : list Model;      (** added, not yet flushed *)
  identity_map : list Key;   (** objects attached to the session *)
  inactive : bool            (** a flush failed and nothing rolled back *)
}.

Definition fresh_session : Session := mk_Session None [] [] false.

(** Modelled from the spec: the ratio-matrix collaborator of the absent
    [ratios.py] (section 4.2): the dirty cells since its last [commit], the
    stable [Pair] identity of a cell and the current ratio of a cell. *)
Record RatiosManager := mk_RatiosManager {
  rm_pairs : list Pair;
  rm_dirty : list (nat * nat);
  rm_pair_id : nat -> nat -> Z;
  rm_value : nat -> nat -> float
}.

(** The [socketio.Client]: [ns_ready_in] is the number of polls after which
    the namespace negotiation running in the background has finished, [None]
    when it never does. *)
Record Client := mk_Client {
  connected : bool;
  namespaces : list string;
  ns_ready_in : option nat
}.

Inductive ConnectOutcome :=
| Refused                            (** [connect] raises [ConnectionError] *)
| Accepted (ready_in : option nat).  (** [connect] returns *)

Inductive Event :=
| EvCommit
| EvRollback
| EvClose
| EvEmit (m : Model)
| EvWarning (msg : string)
| EvSleep.

(** What the program cannot control: the wall clock (one reading per call
    of [datetime.now()]), store failures (one entry per round trip to the
    database), the gateway (one entry per connection attempt), the row an
    [INSERT] without values produces in [scout_history], if any, and the
    constructor [RatiosManager(pairs)] of the absent [ratios.py]. *)
Record Env := mk_Env {
  wall_clock : nat -> datetime;
  fault_at : nat -> bool;
  connect_outcome : nat -> ConnectOutcome;
  scout_history_default : option ScoutHistory;
  new_ratios_manager : list Pair -> RatiosManager
}.

Record World := mk_World {
  durable : Store;
  session : Session;
  ratios_manager : option RatiosManager;
  coin_stubs : list string;
  client : Client;
  trace : list Event;
  clock_reads : nat;
  io_count : nat;
  connect_attempts : nat;
  env : Env
}.

Definition with_durable (d : Store) (w : World) : World :=
  mk_World d (session w) (ratios_manager w) (coin_stubs w) (client w)
           (trace w) (clock_reads w) (io_count w) (connect_attempts w) (env w).
Definition with_session (s : Session) (w : World) : World :=
  mk_World (durable w) s (ratios_manager w) (coin_stubs w) (client w)
           (trace w) (clock_reads w) (io_count w) (connect_attempts w) (env w).
Definition with_ratios_manager (r : option RatiosManager) (w : World) : World :=
  mk_World (durable w) (session w) r (coin_stubs w) (client w)
           (trace w) (clock_reads w) (io_count w) (connect_attempts w) (env w).
Definition with_coin_stubs (c : list string) (w : World) : World :=
  mk_World (durable w) (session w) (ratios_manager w) c (client w)
           (trace w) (clock_reads w) (io_count w) (connect_attempts w) (env w).
Definition with_client (c : Client) (w : World) : World :=
  mk_World (durable w) (session w) (ratios_manager w) (coin_stubs w) c
           (trace w) (clock_reads w) (io_count w) (connect_attempts w) (env w).
Definition log_event (e : Event) (w : World) : World :=
  mk_World (durable w) (session w) (ratios_manager w) (coin_stubs w) (client w)
           (trace w ++ [e]) (clock_reads w) (io_count w) (connect_attempts w)
           (env w).
Definition tick_clock (w : World) : World :=
  mk_World (durable w) (session w) (ratios_manager w) (coin_stubs w) (client w)
           (trace w) (S (clock_reads w)) (io_count w) (connect_attempts w)
           (env w).
Definition tick_io (w : World) : World :=
  mk_World (durable w) (session w) (ratios_manager w) (coin_stubs w) (client w)
           (trace w) (clock_reads w) (S (io_count w)) (connect_attempts w)
           (env w).
Definition tick_connect (w : World) : World :=
  mk_World (durable w) (session w) (ratios_manager w) (coin_stubs w) (client w)
           (trace w) (clock_reads w) (io_count w) (S (connect_attempts w))
           (env w).

(* ===================================================================== *)
(** ** Python control flow: state, exceptions, divergence *)
(* ===================================================================== *)

Inductive Exn :=
| OperationalError          (** the store failed a round trip *)
| IntegrityError            (** a constraint failed during a flush *)
| PendingRollbackError      (** the session is used after a failed flush *)
| UnmappedInstanceError     (** [expunge(None)] *)
| InvalidRequestError       (** [expunge] of an object not in the session *)
| AttributeError            (** attribute access on [None] *)
| SocketIOConnectionError
| BadNamespaceError
| OtherError (msg : string).

Definition Exn_eqb (a b : Exn) : bool :=
  match a, b with
  | OperationalError, OperationalError
  | IntegrityError, IntegrityError
  | PendingRollbackError, PendingRollbackError
  | UnmappedInstanceError, UnmappedInstanceError
  | InvalidRequestError, InvalidRequestError
  | AttributeError, AttributeError
  | SocketIOConnectionError, SocketIOConnectionError
  | BadNamespaceError, BadNamespaceError => true
  | OtherError s, OtherError t => String.eqb s t
  | _, _ => false
  end.

(** How a call ends: it returns, it raises, or it never comes back. *)
Inductive Res (A : Type) :=
| Ok (a : A)
| Raise (e : Exn)
| Hang.
Arguments Ok {A} a.
Arguments Raise {A} e.
Arguments Hang {A}.

Definition M (A : Type) : Type := World -> Res A * World.

Definition ret {A} (a : A) : M A := fun w => (Ok a, w).

Definition bind {A B} (m : M A) (k : A -> M B) : M B :=
  fun w =>
    match m w with
    | (Ok a, w') => k a w'
    | (Raise e, w') => (Raise e, w')
    | (Hang, w') => (Hang, w')
    end.

Definition raise {A} (e : Exn) : M A := fun w => (Raise e, w).
Definition hang {A} : M A := fun w => (Hang, w).

(** [try: m except exc: handler]. *)
Definition try_except {A} (m : M A) (exc : Exn) (handler : M A) : M A :=
  fun w =>
    match m w with
    | (Raise e, w') => if Exn_eqb e exc then handler w' else (Raise e, w')
    | r => r
    end.

Definition gets {A} (f : World -> A) : M A := fun w => (Ok (f w), w).
Definition modify (f : World -> World) : M unit := fun w => (Ok tt, f w).

Declare Scope py_scope.
Delimit Scope py_scope with py.
Notation "x <- m ;; k" := (bind m (fun x => k))
  (at level 61, m at next level, right associativity) : py_scope.
Notation "m ;; k" := (bind m (fun _ => k))
  (at level 61, right associativity) : py_scope.
Local Open Scope py_scope.

(** [for x in xs: body x]. *)
Fixpoint for_each {A} (xs : list A) (body : A -> M unit) : M unit :=
  match xs with
  | [] => ret tt
  | x :: xs' => body x ;; for_each xs' body
  end.

(** A [@contextmanager] generator of the shape
    [x = enter(); yield x; leave(x)], run by a [with] statement.  An
    exception raised by the body is thrown into the generator at its
    [yield]; the generator has no handler there, so the exception leaves it
    and nothing after the [yield] runs. *)
Definition contextmanager {S A} (enter : M S) (leave : S -> M unit)
    (body : S -> M A) : M A :=
  s <- enter ;;
  a <- body s ;;
  leave s ;;
  ret a.

(* ===================================================================== *)
(** ** The SQLAlchemy session *)
(* ===================================================================== *)

Definition set_txn (t : option Store) (s : Session) : Session :=
  mk_Session t (pending s) (identity_map s) (inactive s).
Definition set_pending (p : list Model) (s : Session) : Session :=
  mk_Session (txn s) p (identity_map s) (inactive s).
Definition set_identity_map (k : list Key) (s : Session) : Session :=
  mk_Session (txn s) (pending s) k (inactive s).

(** What the session sees: the transaction in progress, or the durable
    store when none has begun. *)
Definition current_view (w : World) : Store :=
  match txn (session w) with
  | Some v => v
  | None => durable w
  end.

Definition put_view (v : Store) (w : World) : World :=
  with_session (set_txn (Some v) (session w)) w.

(** One round trip to the database. *)
Definition db_roundtrip : M unit :=
  fun w =>
    if inactive (session w) then (Raise PendingRollbackError, w)
    else if fault_at (env w) (io_count w)
         then (Raise OperationalError, tick_io w)
         else (Ok tt, tick_io w).

(** The [INSERT] of one pending object; [None] when a key is taken. *)
Definition insert_model (m : Model) (v : Store) : option Store :=
  match m with
  | CoinModel c =>
      if existsb (fun c' => String.eqb (coin_symbol c') (coin_symbol c))
                 (coins v)
      then None
      else Some (with_coins (fun l => l ++ [c]) v)
  | PairModel p =>
      match pair_id p with
      | None =>
          let i := next_rowid (opt_ids pair_id (pairs v)) in
          Some (with_pairs (fun l => l ++
                  [mk_Pair (Some i) (pair_from_coin_id p) (pair_to_coin_id p)
                           (pair_ratio p) (pair_enabled p)]) v)
      | Some i =>
          if existsb (Z.eqb i) (opt_ids pair_id (pairs v)) then None
          else Some (with_pairs (fun l => l ++ [p]) v)
      end
  | CurrentCoinModel cc =>
      match cc_id cc with
      | None =>
          let i := next_rowid (opt_ids cc_id (current_coins v)) in
          Some (with_current_coins (fun l => l ++
                  [mk_CurrentCoin (Some i) (cc_coin_id cc) (cc_datetime cc)]) v)
      | Some i =>
          if existsb (Z.eqb i) (opt_ids cc_id (current_coins v)) then None
          else Some (with_current_coins (fun l => l ++ [cc]) v)
      end
  | TradeModel t =>
      match trade_id t with
      | None =>
          let i := next_rowid (opt_ids trade_id (trades v)) in
          Some (with_trades (fun l => l ++
                  [mk_Trade (Some i) (trade_alt_coin_id t)
                     (trade_crypto_coin_id t) (trade_selling t) (trade_state t)
                     (trade_alt_starting_balance t) (trade_alt_trade_amount t)
                     (trade_crypto_starting_balance t)
                     (trade_crypto_trade_amount t) (trade_datetime t)]) v)
      | Some i =>
          if existsb (Z.eqb i) (opt_ids trade_id (trades v)) then None
          else Some (with_trades (fun l => l ++ [t]) v)
      end
  end.

(** Pending objects are inserted in the order they were added. *)
Fixpoint insert_models (ms : list Model) (v : Store) : option Store :=
  match ms with
  | [] => Some v
  | m :: ms' =>
      match insert_model m v with
      | Some v' => insert_models ms' v'
      | None => None
      end
  end.

(** [session.flush()].  A failed flush rolls the transaction back inside
    the session and leaves the session unusable until someone calls
    [rollback()] or [close()]. *)
Definition session_flush : M unit :=
  fun w =>
    match pending (session w) with
    | [] => (Ok tt, w)
    | ms =>
        match db_roundtrip w with
        | (Ok _, w1) =>
            match insert_models ms (current_view w1) with
            | Some v' =>
                (Ok tt, with_session
                          (mk_Session (Some v') []
                                      (identity_map (session w1)) false) w1)
            | None =>
                (Raise IntegrityError,
                 with_session
                   (mk_Session None [] (identity_map (session w1)) true) w1)
            end
        | (Raise e, w1) => (Raise e, w1)
        | (Hang, w1) => (Hang, w1)
        end
    end.

(** [session.add(obj)]. *)
Definition session_add (m : Model) : M unit :=
  modify (fun w =>
    with_session (set_pending (pending (session w) ++ [m]) (session w)) w).

(** A [SELECT]: autoflush, one round trip, the answer read off the view. *)
Definition session_query {A} (q : Store -> A) : M A :=
  session_flush ;;
  db_roundtrip ;;
  v <- gets current_view ;;
  modify (put_view v) ;;
  ret (q v).

(** An [UPDATE], [DELETE] or [INSERT] statement run through the session. *)
Definition session_execute (stmt : Store -> Store) : M unit :=
  session_flush ;;
  db_roundtrip ;;
  v <- gets current_view ;;
  modify (put_view (stmt v)).

(** An attribute assignment on a persistent object: the row of the view
    changes, the [UPDATE] goes out with the next flush. *)
Definition session_set (upd : Store -> Store) : M unit :=
  modify (fun w => put_view (upd (current_view w)) w).

(** Query results and merged objects enter the identity map. *)
Definition session_attach (ks : list Key) : M unit :=
  modify (fun w =>
    with_session
      (set_identity_map (identity_map (session w) ++ ks) (session w)) w).

(** [session.expunge(obj)]. *)
Definition session_expunge (k : Key) : M unit :=
  fun w =>
    if existsb (Key_eqb k) (identity_map (session w))
    then (Ok tt,
          with_session
            (set_identity_map
               (filter (fun k' => negb (Key_eqb k k'))
                       (identity_map (session w)))
               (session w)) w)
    else (Raise InvalidRequestError, w).

(** [session.commit()]: flush, then make the view durable. *)
Definition session_commit : M unit :=
  session_flush ;;
  db_roundtrip ;;
  modify (fun w =>
    log_event EvCommit
      (with_session (set_txn None (session w))
         (with_durable (current_view w) w))).

(** [session.rollback()]; no method of [Database] calls it. *)
Definition session_rollback : M unit :=
  modify (fun w =>
    log_event EvRollback
      (with_session
         (mk_Session None [] (identity_map (session w)) false) w)).

(** [session.close()]: whatever is uncommitted is dropped and every object
    is detached. *)
Definition session_close : M unit :=
  modify (fun w => log_event EvClose (with_session fresh_session w)).

(** [datetime.now()]. *)
Definition datetime_now : M datetime :=
  fun w => (Ok (wall_clock (env w) (clock_reads w)), tick_clock w).

(** Stable insertion sort, the model of [ORDER BY]. *)
Fixpoint insert_sorted {A} (leb : A -> A -> bool) (x : A) (l : list A)
    : list A :=
  match l with
  | [] => [x]
  | y :: l' => if leb x y then x :: l else y :: insert_sorted leb x l'
  end.

Fixpoint sort_by {A} (leb : A -> A -> bool) (l : list A) : list A :=
  match l with
  | [] => []
  | x :: l' => insert_sorted leb x (sort_by leb l')
  end.

(* ===================================================================== *)
(** ** [class Database] *)
(* ===================================================================== *)

Definition API_GATEWAY : string := "http://api:5000".

(** [self.session_factory()]: the scoped session of the calling thread. *)
Definition session_factory : M unit := ret tt.

(** [Database.db_session]:
    [session = self.session_factory(); yield session; session.commit();
    session.close()]. *)
Definition db_session {A} (body : M A) : M A :=
  contextmanager session_factory
                 (fun _ => session_commit ;; session_close)
                 (fun _ => body).

Definition is_nil {A} (l : list A) : bool :=
  match l with [] => true | _ => false end.

(** [client.connect(API_GATEWAY, namespaces=["/backend"])]. *)
Definition client_connect : M unit :=
  fun w =>
    let w1 := tick_connect w in
    match connect_outcome (env w) (connect_attempts w) with
    | Refused => (Raise SocketIOConnectionError, w1)
    | Accepted r =>
        (Ok tt,
         with_client
           (mk_Client true
              (match r with Some O => ["/backend"] | _ => [] end) r) w1)
    end.

(** [time.sleep(0.1)], [k] times over. *)
Fixpoint sleep_n (k : nat) : M unit :=
  match k with
  | O => ret tt
  | S k' => modify (log_event EvSleep) ;; sleep_n k'
  end.

(** [while not client.connected or not client.namespaces: time.sleep(0.1)].
    Nothing in the loop connects the client, so it only ends when the
    negotiation in the background does. *)
Definition poll_until_ready : M unit :=
  c <- gets client ;;
  if connected c && negb (is_nil (namespaces c)) then ret tt
  else if negb (connected c) then hang
  else match ns_ready_in c with
       | None => hang
       | Some k =>
           sleep_n (Nat.max 1 k) ;;
           modify (with_client (mk_Client true ["/backend"] (Some O)))
       end.

(** [Database._api_session]. *)
Definition _api_session : M bool :=
  c <- gets client ;;
  if connected c && negb (is_nil (namespaces c)) then ret true
  else
    try_except
      (c <- gets client ;;
       (if negb (connected c) then client_connect else ret tt) ;;
       poll_until_ready ;;
       ret true)
      SocketIOConnectionError
      (ret false).

(** [self.logger.warning(msg)] on the [Logger] class of [logger.py], which
    forwards to [logging.Logger.warning]. *)
Definition logger_warning (msg : string) : M unit :=
  modify (log_event (EvWarning msg)).

(** [client.emit("update", {"table": ..., "data": model.info()},
    "/backend")]. *)
Definition client_emit (m : Model) : M unit :=
  c <- gets client ;;
  if existsb (String.eqb "/backend") (namespaces c)
  then modify (log_event (EvEmit m))
  else raise BadNamespaceError.

(** [Database.send_update]. *)
Definition send_update (m : Model) : M unit :=
  ok <- _api_session ;;
  if negb ok then
    logger_warning
      ("Heartbeat to API " ++ API_GATEWAY ++ " failed. " ++
       "This might be an issue if you are running in Docker.")%string
  else client_emit m.

Definition symbol_in (s : string) (l : list string) : bool :=
  existsb (String.eqb s) l.

Definition find_coin (s : string) (v : Store) : option Coin :=
  find (fun c => String.eqb (coin_symbol c) s) (coins v).

(** [coin.enabled = b] on the persistent [Coin] with symbol [s]. *)
Definition set_coin_enabled (s : string) (b : bool) : Store -> Store :=
  with_coins (map (fun c =>
    if String.eqb (coin_symbol c) s then mk_Coin (coin_symbol c) b else c)).

(** [Pair.from_coin == from_coin, Pair.to_coin == to_coin]. *)
Definition pair_matches (from_coin to_coin : Coin) (p : Pair) : bool :=
  String.eqb (pair_from_coin_id p) (coin_symbol from_coin) &&
  String.eqb (pair_to_coin_id p) (coin_symbol to_coin).

(** Modelled from the spec: the constructors [Coin(symbol)] and
    [Pair(from_coin, to_coin)] of the absent model modules; a new asset is
    enabled, a new pair has no ratio yet. *)
Definition new_Coin (s : string) : Coin := mk_Coin s true.
Definition new_Pair (from_coin to_coin : Coin) : Pair :=
  mk_Pair None (coin_symbol from_coin) (coin_symbol to_coin) None true.

(** [ORDER BY symbol] under SQLite's binary collation. *)
Definition coin_symbol_leb (a b : Coin) : bool :=
  String.leb (coin_symbol a) (coin_symbol b).

(** [Database.set_coins]: three sessions in a row.  Two mapped [Coin]
    objects of one session differ exactly when their primary keys do. *)
Definition set_coins (symbols : list string) : M unit :=
  db_session
    (coins <- session_query coins ;;
     session_attach (map (fun c => CoinKey (coin_symbol c)) coins) ;;
     for_each coins (fun coin =>
       if negb (symbol_in (coin_symbol coin) symbols)
       then session_set (set_coin_enabled (coin_symbol coin) false)
       else ret tt) ;;
     for_each symbols (fun symbol =>
       match find (fun c => String.eqb (coin_symbol c) symbol) coins with
       | None => session_add (CoinModel (new_Coin symbol))
       | Some coin => session_set (set_coin_enabled (coin_symbol coin) true)
       end)) ;;
  modify (with_coin_stubs []) ;;
  db_session
    (coins <- session_query (fun v =>
                sort_by coin_symbol_leb (filter coin_enabled (coins v))) ;;
     session_attach (map (fun c => CoinKey (coin_symbol c)) coins) ;;
     for_each coins (fun coin =>
       modify (fun w => with_coin_stubs (coin_stubs w ++ [coin_symbol coin]) w)) ;;
     for_each coins (fun from_coin =>
       for_each coins (fun to_coin =>
         if negb (String.eqb (coin_symbol from_coin) (coin_symbol to_coin))
         then
           pair <- session_query (fun v =>
                     find (pair_matches from_coin to_coin) (pairs v)) ;;
           match pair with
           | None => session_add (PairModel (new_Pair from_coin to_coin))
           | Some _ => ret tt
           end
         else ret tt))) ;;
  db_session
    (pairs <- session_query (fun v => filter pair_enabled (pairs v)) ;;
     modify (fun w =>
       with_ratios_manager (Some (new_ratios_manager (env w) pairs)) w)).

(** The argument [coin: Union[Coin, str]]. *)
Inductive CoinArg :=
| CoinObj (c : Coin)
| CoinSymbol (s : string).

(** [Database.get_coin]; [session.expunge(None)] raises when the symbol is
    unknown. *)
Definition get_coin (coin : CoinArg) : M Coin :=
  match coin with
  | CoinObj c => ret c
  | CoinSymbol s =>
      db_session
        (r <- session_query (find_coin s) ;;
         match r with
         | None => raise UnmappedInstanceError
         | Some c =>
             session_attach [CoinKey s] ;;
             session_expunge (CoinKey s) ;;
             ret c
         end)
  end.

(** [session.merge(coin)] for a detached [Coin]: the row with its key takes
    the attribute values of the detached copy; without such a row the copy
    is added. *)
Definition session_merge_coin (c : Coin) : M Coin :=
  r <- session_query (find_coin (coin_symbol c)) ;;
  match r with
  | Some _ =>
      session_set (set_coin_enabled (coin_symbol c) (coin_enabled c)) ;;
      session_attach [CoinKey (coin_symbol c)] ;;
      ret c
  | None => session_add (CoinModel c) ;; ret c
  end.

(** Modelled from the spec: the constructor [CurrentCoin(coin)] of the
    absent [models/current_coin.py]: a pointer to the asset, stamped with
    the time of its creation. *)
Definition new_CurrentCoin (coin : Coin) : M CurrentCoin :=
  dt <- datetime_now ;;
  ret (mk_CurrentCoin None (coin_symbol coin) dt).

(** [Database.set_current_coin]. *)
Definition set_current_coin (coin : CoinArg) : M unit :=
  coin <- get_coin coin ;;
  db_session
    (coin <- session_merge_coin coin ;;
     cc <- new_CurrentCoin coin ;;
     session_add (CurrentCoinModel cc) ;;
     send_update (CurrentCoinModel cc)).

(** [ORDER BY datetime DESC]. *)
Definition cc_datetime_desc (a b : CurrentCoin) : bool :=
  dt_leb (cc_datetime b) (cc_datetime a).

(** [Database.get_current_coin]; [current_coin.coin] follows the foreign
    key, and is [None] when no such [Coin] exists. *)
Definition get_current_coin : M (option Coin) :=
  db_session
    (current_coin <- session_query (fun v =>
                       hd_error (sort_by cc_datetime_desc (current_coins v))) ;;
     match current_coin with
     | None => ret None
     | Some cc =>
         session_attach (map CurrentCoinKey (opt_ids cc_id [cc])) ;;
         coin <- session_query (find_coin (cc_coin_id cc)) ;;
         match coin with
         | None => raise UnmappedInstanceError
         | Some c =>
             session_attach [CoinKey (coin_symbol c)] ;;
             session_expunge (CoinKey (coin_symbol c)) ;;
             ret (Some c)
         end
     end).

(** *** Retention engine *)

(** Equality of two [coin_values] rows, column by column, as [GROUP BY]
    compares them. *)
Definition CoinValue_eqb (a b : CoinValue) : bool :=
  (cv_id a =? cv_id b) &&
  String.eqb (cv_coin_id a) (cv_coin_id b) &&
  PrimFloat.eqb (cv_balance a) (cv_balance b) &&
  PrimFloat.eqb (cv_usd_price a) (cv_usd_price b) &&
  PrimFloat.eqb (cv_btc_price a) (cv_btc_price b) &&
  Interval_eqb (cv_interval a) (cv_interval b) &&
  match dt_compare (cv_datetime a) (cv_datetime b) with
  | Eq => true
  | _ => false
  end.

(** The grouping key of [_datetime_id_query]:
    [group_by(CoinValue.coin_id, CoinValue, dt_column)].  A mapped class
    among the [GROUP BY] terms stands for every column of its table. *)
Definition group_key_eqb (dt_format : string) (a b : CoinValue) : bool :=
  String.eqb (cv_coin_id a) (cv_coin_id b) &&
  CoinValue_eqb a b &&
  String.eqb (strftime dt_format (cv_datetime a))
             (strftime dt_format (cv_datetime b)).

(** A row joins the first group whose key it shares, or opens a new one. *)
Fixpoint group_insert {A} (same : A -> A -> bool) (x : A)
    (gs : list (list A)) : list (list A) :=
  match gs with
  | [] => [[x]]
  | g :: gs' =>
      match g with
      | y :: _ =>
          if same y x then (g ++ [x]) :: gs'
          else g :: group_insert same x gs'
      | [] => g :: group_insert same x gs'
      end
  end.

Definition group_by {A} (same : A -> A -> bool) (rows : list A)
    : list (list A) :=
  fold_left (fun gs x => group_insert same x gs) rows [].

(** The row of a group that carries [max(datetime)]: SQLite takes the bare
    columns of an aggregate query from that row. *)
Definition latest (g : list CoinValue) : option CoinValue :=
  fold_left (fun acc r =>
    match acc with
    | None => Some r
    | Some a => if dt_ltb (cv_datetime a) (cv_datetime r) then Some r
                else Some a
    end) g None.

(** [_datetime_id_query(dt_format)]: the [id] column of the grouped
    select. *)
Definition _datetime_id_query (dt_format : string) (rows : list CoinValue)
    : list Z :=
  flat_map (fun g => match latest g with
                     | Some r => [cv_id r]
                     | None => []
                     end)
           (group_by (group_key_eqb dt_format) rows).

Definition set_interval (i : Interval) (r : CoinValue) : CoinValue :=
  mk_CoinValue (cv_id r) (cv_coin_id r) (cv_balance r) (cv_usd_price r)
               (cv_btc_price r) i (cv_datetime r).

(** [_update_query(datetime_query, interval)]:
    [UPDATE coin_value SET interval = ... WHERE id IN (datetime_query)]. *)
Definition _update_query (datetime_query : list CoinValue -> list Z)
    (interval : Interval) (rows : list CoinValue) : list CoinValue :=
  let ids := datetime_query rows in
  map (fun r => if existsb (Z.eqb (cv_id r)) ids
                then set_interval interval r else r) rows.

Definition hourly_update_query := _update_query (_datetime_id_query "%H") HOURLY.
Definition weekly_update_query :=
  _update_query (_datetime_id_query "%Y-%W") WEEKLY.
Definition daily_update_query :=
  _update_query (_datetime_id_query "%Y-%j") DAILY.

(** The filter of one [delete()]: rows tagged [interval] and strictly older
    than [time_diff]. *)
Definition expired (interval : Interval) (time_diff : datetime)
    (r : CoinValue) : bool :=
  Interval_eqb (cv_interval r) interval && dt_ltb (cv_datetime r) time_diff.

Definition delete_expired (interval : Interval) (time_diff : datetime)
    : Store -> Store :=
  with_coin_values (filter (fun r => negb (expired interval time_diff r))).

(** First half of the body of [prune_value_history]: the three updates and
    the commit that follows them. *)
Definition reclassify : M unit :=
  session_execute (with_coin_values hourly_update_query) ;;
  session_execute (with_coin_values daily_update_query) ;;
  session_execute (with_coin_values weekly_update_query) ;;
  session_commit.

(** Second half: the three deletes, each against a fresh reading of the
    clock. *)
Definition prune_expired : M unit :=
  now <- datetime_now ;;
  session_execute (delete_expired MINUTELY (sub_relativedelta now 0 0 1)) ;;
  now <- datetime_now ;;
  session_execute (delete_expired HOURLY (sub_relativedelta now 0 1 0)) ;;
  now <- datetime_now ;;
  session_execute (delete_expired DAILY (sub_relativedelta now 1 0 0)).

(** [Database.prune_value_history]. *)
Definition prune_value_history : M unit :=
  db_session (reclassify ;; prune_expired).

(** *** Batched writers *)

Definition scout_row (dt : datetime) (ls : LogScout) (id : Z) : ScoutHistory :=
  mk_ScoutHistory id (Some (ls_pair_id ls)) (Some (ls_ratio_diff ls))
                  (Some (ls_target_ratio ls)) (Some (ls_coin_price ls))
                  (Some (ls_optional_coin_price ls)) (Some dt).

(** [INSERT INTO scout_history ...] once per parameter set. *)
Definition insert_scout_rows (rows : list (Z -> ScoutHistory))
    (tbl : list ScoutHistory) : list ScoutHistory :=
  fold_left (fun t mk => t ++ [mk (next_rowid (map sh_id t))]) rows tbl.

Definition with_sh_id (id : Z) (r : ScoutHistory) : ScoutHistory :=
  mk_ScoutHistory id (sh_pair_id r) (sh_ratio_diff r) (sh_target_ratio r)
                  (sh_current_coin_price r) (sh_other_coin_price r)
                  (sh_datetime r).

(** [Database.batch_log_scout] (the body under [@heavy_call]).  An empty
    parameter list makes [session.execute] run the statement once with no
    values bound: the row holds the column defaults, or the statement
    fails on a constraint. *)
Definition batch_log_scout (logs : list LogScout) : M unit :=
  db_session
    (dt <- datetime_now ;;
     match logs with
     | [] =>
         d <- gets (fun w => scout_history_default (env w)) ;;
         match d with
         | Some r =>
             session_execute
               (with_scout_history
                  (insert_scout_rows [fun id => with_sh_id id r]))
         | None => session_flush ;; db_roundtrip ;; raise IntegrityError
         end
     | _ =>
         session_execute
           (with_scout_history (insert_scout_rows (map (scout_row dt) logs)))
     end).

(** [UPDATE pair SET ratio = :pair_ratio WHERE id = :pair_id]. *)
Definition update_pair_ratio (params : Z * float) (ps : list Pair)
    : list Pair :=
  map (fun p =>
         match pair_id p with
         | Some i =>
             if i =? fst params
             then mk_Pair (pair_id p) (pair_from_coin_id p)
                          (pair_to_coin_id p) (Some (snd params))
                          (pair_enabled p)
             else p
         | None => p
         end) ps.

(** The parameter sets of the batched update, one per dirty cell. *)
Definition ratio_params (rm : RatiosManager) : list (Z * float) :=
  map (fun c => (rm_pair_id rm (fst c) (snd c), rm_value rm (fst c) (snd c)))
      (rm_dirty rm).

(** Modelled from the spec: [RatiosManager.commit()] of the absent
    [ratios.py] clears the dirty set (section 4.2 (d)). *)
Definition ratios_manager_commit : M unit :=
  rm <- gets ratios_manager ;;
  match rm with
  | None => raise AttributeError
  | Some r =>
      modify (with_ratios_manager
                (Some (mk_RatiosManager (rm_pairs r) [] (rm_pair_id r)
                                        (rm_value r))))
  end.

(** [Database.commit_ratios] (the body under [@heavy_call]). *)
Definition commit_ratios : M unit :=
  rm <- gets ratios_manager ;;
  match rm with
  | None => raise AttributeError
  | Some r =>
      if Nat.eqb (List.length (rm_dirty r)) 0 then ret tt
      else
        db_session
          (session_execute
             (with_pairs (fun ps =>
                fold_left (fun t prm => update_pair_ratio prm t)
                          (ratio_params r) ps))) ;;
        ratios_manager_commit
  end.

(* ===================================================================== *)
(** ** [class TradeLog] *)
(* ===================================================================== *)

(** The tracker keeps [self.trade], detached and expired once the session
    that created it has committed and closed. *)
Record TradeLog := mk_TradeLog { tl_trade : Trade }.

Definition blank_Trade : Trade :=
  mk_Trade None None None None None None None None None None.

(** Modelled from the spec: the constructor [Trade(from_coin, to_coin,
    selling)] of the absent [models/trade.py]: entry state [INITIAL], no
    balance known, stamped with the time of its creation. *)
Definition new_Trade (from_coin to_coin : string) (selling : bool) : M Trade :=
  dt <- datetime_now ;;
  ret (mk_Trade None (Some from_coin) (Some to_coin) (Some selling)
                (Some INITIAL) None None None None (Some dt)).

Definition find_trade (i : Z) (v : Store) : option Trade :=
  find (fun t => match trade_id t with
                 | Some j => j =? i
                 | None => false
                 end) (trades v).

(** [session.merge(self.trade)]: the handle is expired, so the merge loads
    the row with its key and copies nothing onto it; without such a row the
    merged object is a new, empty one. *)
Definition session_merge_trade (t : Trade) : M Trade :=
  match trade_id t with
  | Some i =>
      r <- session_query (find_trade i) ;;
      match r with
      | Some row => session_attach [TradeKey i] ;; ret row
      | None => ret blank_Trade
      end
  | None => ret blank_Trade
  end.

(** The assignments to the merged trade reach the store with the next
    flush: as an [UPDATE] of its row, or as the [INSERT] of a new one. *)
Definition session_save_trade (t : Trade) : M unit :=
  match trade_id t with
  | Some i =>
      session_set (with_trades (map (fun r =>
        match trade_id r with
        | Some j => if j =? i then t else r
        | None => r
        end)))
  | None => session_add (TradeModel t)
  end.

(** [TradeLog.__init__], reached through [Database.start_trade_log]. *)
Definition start_trade_log (from_coin to_coin : string) (selling : bool)
    : M TradeLog :=
  db_session
    (t <- new_Trade from_coin to_coin selling ;;
     session_add (TradeModel t) ;;
     session_flush ;;
     trade <- gets (fun w => last (trades (current_view w)) t) ;;
     send_update (TradeModel trade) ;;
     ret (mk_TradeLog trade)).

(** [TradeLog.set_ordered]. *)
Definition set_ordered (self : TradeLog)
    (alt_starting_balance crypto_starting_balance alt_trade_amount : float)
    : M unit :=
  db_session
    (t <- session_merge_trade (tl_trade self) ;;
     let trade :=
       mk_Trade (trade_id t) (trade_alt_coin_id t) (trade_crypto_coin_id t)
                (trade_selling t) (Some ORDERED)
                (Some alt_starting_balance) (Some alt_trade_amount)
                (Some crypto_starting_balance)
                (trade_crypto_trade_amount t) (trade_datetime t) in
     session_save_trade trade ;;
     send_update (TradeModel trade)).

(** [TradeLog.set_complete]. *)
Definition set_complete (self : TradeLog) (crypto_trade_amount : float)
    : M unit :=
  db_session
    (t <- session_merge_trade (tl_trade self) ;;
     let trade :=
       mk_Trade (trade_id t) (trade_alt_coin_id t) (trade_crypto_coin_id t)
                (trade_selling t) (Some COMPLETE)
                (trade_alt_starting_balance t) (trade_alt_trade_amount t)
                (trade_crypto_starting_balance t)
                (Some crypto_trade_amount) (trade_datetime t) in
     session_save_trade trade ;;
     send_update (TradeModel trade)).

(* ===================================================================== *)
(** ** Sample worlds *)
(* ===================================================================== *)

Module Sample.

(** A clock that advances one minute per reading from 2024-05-17 10:00. *)
Definition clock (n : nat) : datetime :=
  mk_datetime 2024 5 17 10 (Z.of_nat n) 0 0.

(** The ratio matrix built over pairs: nothing dirty, cell [(i, j)] bound
    to the pair identity [10 * i + j]. *)
Definition matrix (ps : list Pair) : RatiosManager :=
  mk_RatiosManager ps [] (fun i j => Z.of_nat (10 * i + j))
                   (fun _ _ => 1.5%float).

(** The gateway refuses every connection; the store never fails. *)
Definition env_offline : Env :=
  mk_Env clock (fun _ => false) (fun _ => Refused) None matrix.

(** The gateway accepts and has the namespace ready after two polls. *)
Definition env_online : Env :=
  mk_Env clock (fun _ => false) (fun _ => Accepted (Some 2%nat)) None matrix.

Definition world (e : Env) (d : Store) : World :=
  mk_World d fresh_session None [] (mk_Client false [] None) [] 0 0 0 e.

Definition btc_eth : Store :=
  mk_Store [mk_Coin "BTC" true; mk_Coin "ETH" true]
           [mk_Pair (Some 1) "BTC" "ETH" None true;
            mk_Pair (Some 2) "ETH" "BTC" None true]
           [] [] [] [].

(** The same world with the client connected on ["/backend"]. *)
Definition world_connected (e : Env) (d : Store) : World :=
  with_client (mk_Client true ["/backend"] (Some O)) (world e d).

(** A store with one trade, just created, and the tracker that holds it. *)
Definition initial_trade : Trade :=
  mk_Trade (Some 7) (Some "BTC") (Some "ETH") (Some true) (Some INITIAL)
           None None None None None.

Definition traded : Store := with_trades (fun _ => [initial_trade]) btc_eth.

Definition tracker : TradeLog :=
  mk_TradeLog (mk_Trade (Some 7) None None None None None None None None None).

(** A ratio matrix with two dirty cells, bound to pairs 2 and 1. *)
Definition dirty_matrix : RatiosManager :=
  mk_RatiosManager (pairs btc_eth) [(0%nat, 1%nat); (1%nat, 0%nat)]
                   (fun i j => Z.of_nat (i + 2 * j))
                   (fun i j => if Nat.eqb i 0 then 0.25%float else 4%float).

(** A store that fails its first round trip. *)
Definition env_failing : Env :=
  mk_Env clock (fun n => Nat.eqb n 0) (fun _ => Refused) None matrix.

(** Samples of every tag, some inside and some outside their window when
    the clock reads 2024-05-17 10:00. *)
Definition sample_value (id : Z) (i : Interval) (y m d : Z) : CoinValue :=
  mk_CoinValue id "BTC" 1%float 2%float 3%float i (mk_datetime y m d 9 0 0 0).

Definition history : Store :=
  with_coin_values (fun _ =>
    [sample_value 1 MINUTELY 2024 5 15; sample_value 2 MINUTELY 2024 5 17;
     sample_value 3 HOURLY 2024 4 1;    sample_value 4 HOURLY 2024 5 1;
     sample_value 5 DAILY 2023 5 1;     sample_value 6 DAILY 2023 6 1;
     sample_value 7 WEEKLY 2018 1 1]) btc_eth.


End Sample.

(* ===================================================================== *)
(** ** Reasoning about runs *)
(* ===================================================================== *)

(** The store never fails a round trip. *)
Definition no_faults (w : World) : Prop :=
  forall n, fault_at (env w) n = false.

(** The session is as [close()] leaves it. *)
Definition session_idle (w : World) : Prop := session w = fresh_session.

(** The gateway answers: the client is connected on ["/backend"]. *)
Definition relay_ready (w : World) : Prop :=
  connected (client w) = true /\ In "/backend" (namespaces (client w)).

(** The gateway is down: the client is not connected and the next
    connection attempt is refused. *)
Definition relay_down (w : World) : Prop :=
  connected (client w) = false /\
  connect_outcome (env w) (connect_attempts w) = Refused.

Definition is_notify (e : Event) : bool :=
  match e with
  | EvEmit _ | EvWarning _ => true
  | _ => false
  end.

(** The gateway answers, is down, or accepts the next connection and
    finishes the negotiation after finitely many polls. *)
Definition relay_answers (w : World) : Prop :=
  relay_ready w \/ relay_down w \/
  (connected (client w) = false /\
   exists k, connect_outcome (env w) (connect_attempts w) = Accepted (Some k)).

(** [m] returns from [w], with a value and in a world that satisfy [Q]. *)
Definition returns {A} (m : M A) (w : World) (Q : A -> World -> Prop) : Prop :=
  exists a w', m w = (Ok a, w') /\ Q a w'.

(** The world after the relay was used: only the client, the count of
    connection attempts and the trace have moved. *)
Definition relayed (c : Client) (attempts : nat) (evs : list Event)
    (w : World) : World :=
  mk_World (durable w) (session w) (ratios_manager w) (coin_stubs w) c
           (trace w ++ evs) (clock_reads w) (io_count w) attempts (env w).

Lemma bind_ok {A B} (m : M A) (k : A -> M B) w a w1 :
  m w = (Ok a, w1) -> bind m k w = k a w1.
Proof. intros H. unfold bind. now rewrite H. Qed.

Lemma bind_raise {A B} (m : M A) (k : A -> M B) w e w1 :
  m w = (Raise e, w1) -> bind m k w = (Raise e, w1).
Proof. intros H. unfold bind. now rewrite H. Qed.

Lemma bind_hang {A B} (m : M A) (k : A -> M B) w w1 :
  m w = (Hang, w1) -> bind m k w = (Hang, w1).
Proof. intros H. unfold bind. now rewrite H. Qed.

Lemma bind_inv_ok {A B} (m : M A) (k : A -> M B) w b w' :
  bind m k w = (Ok b, w') ->
  exists a w1, m w = (Ok a, w1) /\ k a w1 = (Ok b, w').
Proof.
  unfold bind. destruct (m w) as [[a | e |] w1]; intros H; try discriminate.
  now exists a, w1.
Qed.

Lemma db_roundtrip_ok w :
  inactive (session w) = false -> no_faults w ->
  db_roundtrip w = (Ok tt, tick_io w).
Proof.
  intros Hi Hf. unfold db_roundtrip. now rewrite Hi, Hf.
Qed.

Lemma session_flush_nothing w :
  pending (session w) = [] -> session_flush w = (Ok tt, w).
Proof. intros H. unfold session_flush. now rewrite H. Qed.

Lemma session_query_ok {A} (q : Store -> A) w :
  pending (session w) = [] -> inactive (session w) = false -> no_faults w ->
  session_query q w
  = (Ok (q (current_view w)), put_view (current_view w) (tick_io w)).
Proof.
  intros Hp Hi Hf. unfold session_query.
  rewrite (bind_ok _ _ _ _ _ (session_flush_nothing w Hp)).
  rewrite (bind_ok _ _ _ _ _ (db_roundtrip_ok w Hi Hf)).
  reflexivity.
Qed.

Lemma session_execute_ok (stmt : Store -> Store) w :
  pending (session w) = [] -> inactive (session w) = false -> no_faults w ->
  session_execute stmt w
  = (Ok tt, put_view (stmt (current_view w)) (tick_io w)).
Proof.
  intros Hp Hi Hf. unfold session_execute.
  rewrite (bind_ok _ _ _ _ _ (session_flush_nothing w Hp)).
  rewrite (bind_ok _ _ _ _ _ (db_roundtrip_ok w Hi Hf)).
  reflexivity.
Qed.

Lemma session_commit_ok w :
  pending (session w) = [] -> inactive (session w) = false -> no_faults w ->
  session_commit w
  = (Ok tt,
     log_event EvCommit
       (with_session (set_txn None (session w))
          (with_durable (current_view w) (tick_io w)))).
Proof.
  intros Hp Hi Hf. unfold session_commit.
  rewrite (bind_ok _ _ _ _ _ (session_flush_nothing w Hp)).
  rewrite (bind_ok _ _ _ _ _ (db_roundtrip_ok w Hi Hf)).
  reflexivity.
Qed.


(* ===================================================================== *)
(** ** Weakest-precondition rules *)
(* ===================================================================== *)

Lemma returns_ret {A} (a : A) w (Q : A -> World -> Prop) :
  Q a w -> returns (ret a) w Q.
Proof. intros H. now exists a, w. Qed.

Lemma returns_bind {A B} (m : M A) (k : A -> M B) w (Q : B -> World -> Prop) :
  returns m w (fun a w1 => returns (k a) w1 Q) -> returns (bind m k) w Q.
Proof.
  intros (a & w1 & Hm & b & w2 & Hk & HQ).
  exists b, w2. split; [| exact HQ]. now rewrite (bind_ok _ _ _ _ _ Hm).
Qed.

Lemma returns_gets {A} (f : World -> A) w (Q : A -> World -> Prop) :
  Q (f w) w -> returns (gets f) w Q.
Proof. intros H. now exists (f w), w. Qed.

Lemma returns_modify (f : World -> World) w (Q : unit -> World -> Prop) :
  Q tt (f w) -> returns (modify f) w Q.
Proof. intros H. now exists tt, (f w). Qed.

Lemma returns_weaken {A} (m : M A) w (P Q : A -> World -> Prop) :
  returns m w P -> (forall a w', P a w' -> Q a w') -> returns m w Q.
Proof. intros (a & w' & Hm & HP) H. exists a, w'. auto. Qed.

Lemma returns_eq {A} (m : M A) w a w' (Q : A -> World -> Prop) :
  m w = (Ok a, w') -> Q a w' -> returns m w Q.
Proof. intros Hm HQ. now exists a, w'. Qed.

Lemma returns_session_query {A} (q : Store -> A) w (Q : A -> World -> Prop) :
  pending (session w) = [] -> inactive (session w) = false -> no_faults w ->
  Q (q (current_view w)) (put_view (current_view w) (tick_io w)) ->
  returns (session_query q) w Q.
Proof.
  intros Hp Hi Hf HQ.
  exact (returns_eq _ _ _ _ _ (session_query_ok q w Hp Hi Hf) HQ).
Qed.

Lemma returns_session_execute (stmt : Store -> Store) w
    (Q : unit -> World -> Prop) :
  pending (session w) = [] -> inactive (session w) = false -> no_faults w ->
  Q tt (put_view (stmt (current_view w)) (tick_io w)) ->
  returns (session_execute stmt) w Q.
Proof.
  intros Hp Hi Hf HQ.
  exact (returns_eq _ _ _ _ _ (session_execute_ok stmt w Hp Hi Hf) HQ).
Qed.

Lemma returns_session_commit w (Q : unit -> World -> Prop) :
  pending (session w) = [] -> inactive (session w) = false -> no_faults w ->
  Q tt (log_event EvCommit
          (with_session (set_txn None (session w))
             (with_durable (current_view w) (tick_io w)))) ->
  returns session_commit w Q.
Proof.
  intros Hp Hi Hf HQ.
  exact (returns_eq _ _ _ _ _ (session_commit_ok w Hp Hi Hf) HQ).
Qed.

(** A flush with something to insert. *)
Lemma session_flush_insert w m ms v :
  pending (session w) = m :: ms ->
  inactive (session w) = false -> no_faults w ->
  insert_models (m :: ms) (current_view w) = Some v ->
  session_flush w
  = (Ok tt,
     with_session (mk_Session (Some v) [] (identity_map (session w)) false)
                  (tick_io w)).
Proof.
  intros Hp Hi Hf Hins. unfold session_flush. rewrite Hp.
  rewrite (db_roundtrip_ok w Hi Hf).
  replace (current_view (tick_io w)) with (current_view w) by reflexivity.
  now rewrite Hins.
Qed.

Lemma returns_session_flush_insert w m ms v (Q : unit -> World -> Prop) :
  pending (session w) = m :: ms ->
  inactive (session w) = false -> no_faults w ->
  insert_models (m :: ms) (current_view w) = Some v ->
  Q tt (with_session (mk_Session (Some v) [] (identity_map (session w)) false)
                     (tick_io w)) ->
  returns session_flush w Q.
Proof.
  intros Hp Hi Hf Hins HQ.
  exact (returns_eq _ _ _ _ _ (session_flush_insert w m ms v Hp Hi Hf Hins) HQ).
Qed.

(** A commit that first has to flush. *)
Lemma returns_session_commit_insert w m ms v (Q : unit -> World -> Prop) :
  pending (session w) = m :: ms ->
  inactive (session w) = false -> no_faults w ->
  insert_models (m :: ms) (current_view w) = Some v ->
  Q tt (log_event EvCommit
          (with_session (mk_Session None [] (identity_map (session w)) false)
             (with_durable v (tick_io (tick_io w))))) ->
  returns session_commit w Q.
Proof.
  intros Hp Hi Hf Hins HQ. unfold session_commit.
  apply returns_bind.
  apply (returns_session_flush_insert w m ms v); auto.
  apply returns_bind.
  eapply returns_eq; [apply db_roundtrip_ok; [reflexivity | exact Hf] |].
  apply returns_modify. exact HQ.
Qed.

Lemma returns_session_close w (Q : unit -> World -> Prop) :
  Q tt (log_event EvClose (with_session fresh_session w)) ->
  returns session_close w Q.
Proof. apply returns_modify. Qed.

Lemma returns_session_expunge k w (Q : unit -> World -> Prop) :
  existsb (Key_eqb k) (identity_map (session w)) = true ->
  Q tt (with_session
          (set_identity_map
             (filter (fun k' => negb (Key_eqb k k')) (identity_map (session w)))
             (session w)) w) ->
  returns (session_expunge k) w Q.
Proof.
  intros Hk HQ. eapply returns_eq; [| exact HQ].
  unfold session_expunge. now rewrite Hk.
Qed.

Lemma returns_datetime_now w (Q : datetime -> World -> Prop) :
  Q (wall_clock (env w) (clock_reads w)) (tick_clock w) ->
  returns datetime_now w Q.
Proof. intros HQ. eapply returns_eq; [reflexivity | exact HQ]. Qed.

(** [db_session]: the body, then commit, then close. *)
Lemma returns_db_session {A} (body : M A) w (Q : A -> World -> Prop) :
  returns body w (fun a w1 =>
    returns session_commit w1 (fun _ w2 =>
      returns session_close w2 (fun _ w3 => Q a w3))) ->
  returns (db_session body) w Q.
Proof.
  intros H. unfold db_session, contextmanager, session_factory.
  apply returns_bind, returns_ret, returns_bind.
  eapply returns_weaken; [exact H |].
  cbv beta. intros a w1 H1.
  apply returns_bind, returns_bind.
  eapply returns_weaken; [exact H1 |].
  cbv beta. intros _ w2 H2.
  eapply returns_weaken; [exact H2 |].
  cbv beta. intros _ w3 H3. now apply returns_ret.
Qed.

(* ===================================================================== *)
(** ** The event relay *)
(* ===================================================================== *)

Lemma sleep_n_run k w :
  sleep_n k w = (Ok tt, relayed (client w) (connect_attempts w)
                                (repeat EvSleep k) w).
Proof.
  revert w. induction k as [| k IH]; intros w.
  - cbn. unfold ret, relayed. rewrite app_nil_r. now destruct w.
  - cbn [sleep_n repeat]. unfold bind, modify. rewrite IH.
    unfold relayed, log_event. cbn. now rewrite <- app_assoc.
Qed.

Lemma In_not_nil {A} (x : A) l : In x l -> is_nil l = false.
Proof. destruct l; [intros [] | reflexivity]. Qed.

Lemma send_update_ready m w :
  relay_ready w -> send_update m w = (Ok tt, log_event (EvEmit m) w).
Proof.
  intros [Hc Hn].
  assert (Hex : existsb (String.eqb "/backend") (namespaces (client w)) = true).
  { apply existsb_exists. exists "/backend". split; [exact Hn |].
    apply String.eqb_refl. }
  unfold send_update, _api_session, client_emit.
  unfold bind, gets, ret, modify. rewrite Hc, (In_not_nil _ _ Hn).
  cbn [andb negb]. now rewrite Hex.
Qed.

Definition heartbeat_warning : Event :=
  EvWarning "Heartbeat to API http://api:5000 failed. This might be an issue if you are running in Docker.".

Lemma send_update_down m w :
  relay_down w ->
  send_update m w = (Ok tt, log_event heartbeat_warning (tick_connect w)).
Proof.
  intros [Hc Hr]. unfold send_update, _api_session, client_connect.
  unfold bind, gets, ret, try_except. rewrite Hc. cbn [andb negb].
  rewrite Hc. cbn [negb]. rewrite Hr. reflexivity.
Qed.

(** Whenever the gateway answers, [send_update] returns, after some polls,
    with exactly one notification at the end of the trace. *)
Lemma send_update_answers m w :
  relay_answers w ->
  exists n sl c a,
    is_notify n = true /\ Forall (eq EvSleep) sl /\
    send_update m w = (Ok tt, relayed c a (sl ++ [n]) w).
Proof.
  intros [H | [H | [Hc [k Hk]]]].
  - exists (EvEmit m), [], (client w), (connect_attempts w).
    rewrite (send_update_ready m w H). repeat split; auto.
  - exists heartbeat_warning, [], (client w), (S (connect_attempts w)).
    rewrite (send_update_down m w H). repeat split; auto.
  - exists (EvEmit m),
      (match k with O => [] | _ => repeat EvSleep k end),
      (mk_Client true ["/backend"] (match k with O => Some O | _ => Some O end)),
      (S (connect_attempts w)).
    split; [reflexivity |]. split.
    { destruct k; [constructor |]. apply Forall_forall.
      intros x Hx. symmetry. exact (repeat_spec _ _ _ Hx). }
    destruct w as [d ss rm cs cl tr cr io ca e]. cbn in Hc, Hk.
    unfold send_update, _api_session, client_connect, poll_until_ready,
      client_emit.
    unfold bind, gets, ret, try_except, modify. cbn. rewrite Hc. cbn.
    rewrite Hc. cbn. rewrite Hk.
    destruct k as [| k].
    + reflexivity.
    + cbn. rewrite sleep_n_run. cbn. unfold relayed. cbn.
      rewrite String.eqb_refl. cbn. unfold log_event, with_client. cbn.
      rewrite <- !app_assoc. reflexivity.
Qed.

(* ===================================================================== *)
(** ** The unit of work *)
(* ===================================================================== *)




(* ===================================================================== *)
(** ** Proof automation for straight-line runs *)
(* ===================================================================== *)

Lemma returns_unit (m : M unit) w (P : World -> Prop) :
  returns m w (fun _ w' => P w') ->
  exists w', m w = (Ok tt, w') /\ P w'.
Proof. intros ([] & w' & Hm & HP). now exists w'. Qed.

Lemma returns_send_update m w (Q : unit -> World -> Prop) :
  relay_answers w ->
  (forall n sl c a,
     is_notify n = true -> Forall (eq EvSleep) sl ->
     Q tt (relayed c a (sl ++ [n]) w)) ->
  returns (send_update m) w Q.
Proof.
  intros Hr HQ.
  destruct (send_update_answers m w Hr) as (n & sl & c & a & Hn & Hsl & Heq).
  eapply returns_eq; [exact Heq |]. now apply HQ.
Qed.


Lemma returns_send_update_ready m w (Q : unit -> World -> Prop) :
  relay_ready w ->
  Q tt (log_event (EvEmit m) w) ->
  returns (send_update m) w Q.
Proof.
  intros Hr HQ. eapply returns_eq; [exact (send_update_ready m w Hr) | exact HQ].
Qed.

Ltac py_side :=
  first [ reflexivity
        | assumption
        | solve [unfold no_faults; cbn; auto] ].

Ltac py_step :=
  lazymatch goal with
  | |- returns (bind _ _) _ _ => apply returns_bind
  | |- returns (ret _) _ _ => apply returns_ret
  | |- returns (gets _) _ _ => apply returns_gets
  | |- returns (modify _) _ _ => apply returns_modify
  | |- returns (db_session _) _ _ => apply returns_db_session
  | |- returns (session_query _) _ _ =>
      apply returns_session_query; [py_side | py_side | py_side |]
  | |- returns (session_execute _) _ _ =>
      apply returns_session_execute; [py_side | py_side | py_side |]
  | |- returns (session_add _) _ _ => apply returns_modify
  | |- returns (session_set _) _ _ => apply returns_modify
  | |- returns (session_attach _) _ _ => apply returns_modify
  | |- returns session_close _ _ => apply returns_session_close
  | |- returns datetime_now _ _ => apply returns_datetime_now
  | |- returns session_commit _ _ =>
      apply returns_session_commit; [py_side | py_side | py_side |]
  end.

(** One update of a world, or of a session, that is given field by field:
    replaced by the record it denotes. *)
Ltac wnorm_at t :=
  let t1 := eval cbv beta delta
              [with_durable with_session with_ratios_manager with_coin_stubs
               with_client log_event tick_clock tick_io tick_connect put_view
               set_txn set_pending set_identity_map current_view relayed
               fresh_session] in t in
  let t2 := eval cbn [durable session ratios_manager coin_stubs client trace
                      clock_reads io_count connect_attempts env
                      txn pending identity_map inactive
                      app fst snd] in t1 in
  change t with t2.

(** Nested updates are resolved from the inside, so that no intermediate
    term holds more than one copy of the world it updates. *)
Ltac wnorm_records :=
  repeat match goal with
  | |- context [set_txn ?x (mk_Session ?a ?b ?c ?d)] =>
      wnorm_at (set_txn x (mk_Session a b c d))
  | |- context [set_pending ?x (mk_Session ?a ?b ?c ?d)] =>
      wnorm_at (set_pending x (mk_Session a b c d))
  | |- context [set_identity_map ?x (mk_Session ?a ?b ?c ?d)] =>
      wnorm_at (set_identity_map x (mk_Session a b c d))
  | |- context [with_durable ?x (mk_World ?d ?s ?rm ?cs ?cl ?tr ?cr ?io ?ca ?e)] =>
      wnorm_at (with_durable x (mk_World d s rm cs cl tr cr io ca e))
  | |- context [with_session ?x (mk_World ?d ?s ?rm ?cs ?cl ?tr ?cr ?io ?ca ?e)] =>
      wnorm_at (with_session x (mk_World d s rm cs cl tr cr io ca e))
  | |- context [with_ratios_manager ?x
                  (mk_World ?d ?s ?rm ?cs ?cl ?tr ?cr ?io ?ca ?e)] =>
      wnorm_at (with_ratios_manager x (mk_World d s rm cs cl tr cr io ca e))
  | |- context [with_coin_stubs ?x
                  (mk_World ?d ?s ?rm ?cs ?cl ?tr ?cr ?io ?ca ?e)] =>
      wnorm_at (with_coin_stubs x (mk_World d s rm cs cl tr cr io ca e))
  | |- context [with_client ?x (mk_World ?d ?s ?rm ?cs ?cl ?tr ?cr ?io ?ca ?e)] =>
      wnorm_at (with_client x (mk_World d s rm cs cl tr cr io ca e))
  | |- context [log_event ?x (mk_World ?d ?s ?rm ?cs ?cl ?tr ?cr ?io ?ca ?e)] =>
      wnorm_at (log_event x (mk_World d s rm cs cl tr cr io ca e))
  | |- context [put_view ?x (mk_World ?d ?s ?rm ?cs ?cl ?tr ?cr ?io ?ca ?e)] =>
      wnorm_at (put_view x (mk_World d s rm cs cl tr cr io ca e))
  | |- context [relayed ?x ?y ?z
                  (mk_World ?d ?s ?rm ?cs ?cl ?tr ?cr ?io ?ca ?e)] =>
      wnorm_at (relayed x y z (mk_World d s rm cs cl tr cr io ca e))
  | |- context [tick_clock (mk_World ?d ?s ?rm ?cs ?cl ?tr ?cr ?io ?ca ?e)] =>
      wnorm_at (tick_clock (mk_World d s rm cs cl tr cr io ca e))
  | |- context [tick_io (mk_World ?d ?s ?rm ?cs ?cl ?tr ?cr ?io ?ca ?e)] =>
      wnorm_at (tick_io (mk_World d s rm cs cl tr cr io ca e))
  | |- context [tick_connect (mk_World ?d ?s ?rm ?cs ?cl ?tr ?cr ?io ?ca ?e)] =>
      wnorm_at (tick_connect (mk_World d s rm cs cl tr cr io ca e))
  | |- context [current_view (mk_World ?d ?s ?rm ?cs ?cl ?tr ?cr ?io ?ca ?e)] =>
      wnorm_at (current_view (mk_World d s rm cs cl tr cr io ca e))
  end.

Ltac wnorm :=
  wnorm_records;
  unfold with_durable, with_session, with_ratios_manager, with_coin_stubs,
    with_client, log_event, tick_clock, tick_io, tick_connect, put_view,
    set_txn, set_pending, set_identity_map, current_view, relayed,
    fresh_session;
  cbn [durable session ratios_manager coin_stubs client trace clock_reads
       io_count connect_attempts env
       txn pending identity_map inactive
       app fst snd].

Ltac py := repeat (py_step; cbn beta; wnorm).

Lemma find_coin_symbol s v c : find_coin s v = Some c -> coin_symbol c = s.
Proof.
  unfold find_coin. intros H. apply find_some in H. destruct H as [_ H].
  now apply String.eqb_eq.
Qed.

Lemma find_coin_none s v :
  find_coin s v = None ->
  existsb (fun c' => String.eqb (coin_symbol c') s) (coins v) = false.
Proof.
  unfold find_coin. induction (coins v) as [| c l IH]; [reflexivity |].
  cbn. destruct (String.eqb (coin_symbol c) s); [discriminate | exact IH].
Qed.

(* ===================================================================== *)
(** ** Relay degradation *)
(* ===================================================================== *)

(** The symbol designated by a [Union[Coin, str]] argument. *)
Definition coin_arg_symbol (coin : CoinArg) : string :=
  match coin with
  | CoinObj c => coin_symbol c
  | CoinSymbol s => s
  end.

(** A symbol given as a string names an asset of the store. *)
Definition coin_arg_known (coin : CoinArg) (v : Store) : Prop :=
  match coin with
  | CoinObj _ => True
  | CoinSymbol s => find_coin s v <> None
  end.



(* ===================================================================== *)
(** ** Trade lifecycle *)
(* ===================================================================== *)

Lemma find_trade_id i v t : find_trade i v = Some t -> trade_id t = Some i.
Proof.
  unfold find_trade. intros H. apply find_some in H. destruct H as [_ H].
  destruct (trade_id t) as [j |]; [| discriminate].
  apply Z.eqb_eq in H. now subst.
Qed.

(** Overwriting the row of key [i] makes the new row the one found. *)
Lemma find_trade_replace i t t' v :
  find_trade i v = Some t -> trade_id t' = Some i ->
  find_trade i
    (with_trades (map (fun r =>
       match trade_id r with
       | Some j => if j =? i then t' else r
       | None => r
       end)) v) = Some t'.
Proof.
  unfold find_trade, with_trades. cbn [trades]. intros Hfind Hid.
  induction (trades v) as [| r l IH]; [discriminate |].
  cbn [find map] in *.
  destruct (trade_id r) as [j |] eqn:Hr.
  - destruct (j =? i) eqn:Hj.
    + now rewrite Hid, Z.eqb_refl.
    + rewrite Hr, Hj. now apply IH.
  - rewrite Hr. now apply IH.
Qed.

(** C3, as stated, fails: the complete-transition on a trade that was just
    created, still [INITIAL], returns normally and the row is [COMPLETE]. *)
Lemma set_complete_on_initial_trade_accepted :
  let r := start_trade_log "BTC" "ETH" true
             (Sample.world Sample.env_offline Sample.btc_eth) in
  match fst r with
  | Ok self =>
      map trade_state (trades (durable (snd r))) = [Some INITIAL] /\
      fst (set_complete self 0.5%float (snd r)) = Ok tt /\
      map trade_state
          (trades (durable (snd (set_complete self 0.5%float (snd r)))))
      = [Some COMPLETE]
  | _ => False
  end.
Proof. vm_compute. repeat split. Qed.

(** C3 (amended): [set_complete] checks no state: on a trade in any state,
    [INITIAL], [ORDERED] or [COMPLETE], it records the traded amount, sets
    the state to [COMPLETE] and returns normally (the store does not fail
    and the gateway answers or is down). *)
Theorem set_complete_accepts_any_state (self : TradeLog) (i : Z) (t : Trade)
    (crypto_trade_amount : float) (w : World) :
  session_idle w -> no_faults w -> relay_answers w ->
  trade_id (tl_trade self) = Some i ->
  find_trade i (durable w) = Some t ->
  exists w',
    set_complete self crypto_trade_amount w = (Ok tt, w') /\
    find_trade i (durable w')
    = Some (mk_Trade (trade_id t) (trade_alt_coin_id t)
              (trade_crypto_coin_id t) (trade_selling t) (Some COMPLETE)
              (trade_alt_starting_balance t) (trade_alt_trade_amount t)
              (trade_crypto_starting_balance t) (Some crypto_trade_amount)
              (trade_datetime t)).
Proof.
  intros Hs Hf Hr Hid Hfind.
  pose proof (find_trade_id _ _ _ Hfind) as Ht.
  destruct w as [d ss rm cs cl tr cr io ca e].
  unfold session_idle, no_faults in *. cbn in Hs, Hf, Hfind. subst ss.
  apply returns_unit. unfold set_complete, session_merge_trade.
  rewrite Hid. py. rewrite Hfind. py.
  unfold session_save_trade. cbn [trade_id]. rewrite Ht. py.
  apply returns_send_update; [exact Hr |].
  intros n sl c a _ _. wnorm. py.
  apply (find_trade_replace i t); [exact Hfind | reflexivity].
Qed.

Lemma set_complete_accepts_any_state_witness :
  exists w',
    set_complete Sample.tracker 0.5%float
                 (Sample.world Sample.env_offline Sample.traded)
    = (Ok tt, w') /\
    option_map trade_state (find_trade 7 (durable w'))
    = Some (Some COMPLETE).
Proof.
  destruct (set_complete_accepts_any_state
              Sample.tracker 7 Sample.initial_trade 0.5%float
              (Sample.world Sample.env_offline Sample.traded))
    as (w' & Hrun & Hrow).
  - reflexivity.
  - intros n. reflexivity.
  - right. left. split; reflexivity.
  - reflexivity.
  - reflexivity.
  - exists w'. split; [exact Hrun |]. now rewrite Hrow.
Defined.

(* ===================================================================== *)
(** ** Ordering of notification and commit *)
(* ===================================================================== *)

(** What C4 asks of the events of one operation: every notification has a
    commit before it. *)
Definition notified_after_commit (evs : list Event) : Prop :=
  forall pre n post,
    evs = pre ++ n :: post -> is_notify n = true -> In EvCommit pre.

(** What the notifying operations do: one notification, and right after
    it the commit and the close of the unit of work it was sent from. *)
Definition notified_then_committed (w w' : World) : Prop :=
  exists evs n,
    trace w' = trace w ++ evs ++ [n; EvCommit; EvClose] /\
    is_notify n = true /\
    Forall (fun e => is_notify e = false) evs.

(** [m] sends no notification, however it ends. *)
Definition quiet {A} (m : M A) : Prop :=
  forall w, exists evs,
    trace (snd (m w)) = trace w ++ evs /\
    Forall (fun e => is_notify e = false) evs.

Lemma quiet_same_trace {A} (m : M A) :
  (forall w, trace (snd (m w)) = trace w) -> quiet m.
Proof.
  intros H w. exists []. rewrite H, app_nil_r. split; [reflexivity | constructor].
Qed.

Lemma quiet_ret {A} (a : A) : quiet (ret a).
Proof. now apply quiet_same_trace. Qed.

Lemma quiet_raise {A} e : quiet (@raise A e).
Proof. now apply quiet_same_trace. Qed.

Lemma quiet_gets {A} (f : World -> A) : quiet (gets f).
Proof. now apply quiet_same_trace. Qed.

Lemma quiet_bind {A B} (m : M A) (k : A -> M B) :
  quiet m -> (forall a, quiet (k a)) -> quiet (bind m k).
Proof.
  intros Hm Hk w. destruct (Hm w) as (e1 & H1 & F1).
  unfold bind. destruct (m w) as [[a | e |] w1]; cbn [snd] in *.
  - destruct (Hk a w1) as (e2 & H2 & F2). exists (e1 ++ e2).
    rewrite H2, H1, app_assoc. split; [reflexivity |].
    apply Forall_app. now split.
  - now exists e1.
  - now exists e1.
Qed.

Lemma quiet_if {A} (b : bool) (m1 m2 : M A) :
  quiet m1 -> quiet m2 -> quiet (if b then m1 else m2).
Proof. now destruct b. Qed.

Lemma quiet_db_roundtrip : quiet db_roundtrip.
Proof.
  apply quiet_same_trace. intros w. unfold db_roundtrip.
  destruct (inactive (session w)); [reflexivity |].
  now destruct (fault_at (env w) (io_count w)).
Qed.

Lemma quiet_session_flush : quiet session_flush.
Proof.
  apply quiet_same_trace. intros w. unfold session_flush.
  destruct (pending (session w)) as [| m ms]; [reflexivity |].
  pose proof (quiet_db_roundtrip w) as (evs & Hev & _).
  assert (Ht : trace (snd (db_roundtrip w)) = trace w).
  { unfold db_roundtrip.
    destruct (inactive (session w)); [reflexivity |].
    now destruct (fault_at (env w) (io_count w)). }
  destruct (db_roundtrip w) as [[[] | e |] w1]; cbn [snd] in *; try exact Ht.
  now destruct (insert_models (m :: ms) (current_view w1)).
Qed.

Lemma quiet_session_query {A} (q : Store -> A) : quiet (session_query q).
Proof.
  unfold session_query.
  apply quiet_bind; [apply quiet_session_flush | intros _].
  apply quiet_bind; [apply quiet_db_roundtrip | intros _].
  apply quiet_bind; [apply quiet_gets | intros v].
  apply quiet_bind; [now apply quiet_same_trace | intros _].
  apply quiet_ret.
Qed.

Lemma quiet_session_execute stmt : quiet (session_execute stmt).
Proof.
  unfold session_execute.
  apply quiet_bind; [apply quiet_session_flush | intros _].
  apply quiet_bind; [apply quiet_db_roundtrip | intros _].
  apply quiet_bind; [apply quiet_gets | intros v].
  now apply quiet_same_trace.
Qed.

Lemma quiet_log (e : Event) (f : World -> World) :
  is_notify e = false -> (forall w, trace (f w) = trace w) ->
  quiet (modify (fun w => log_event e (f w))).
Proof.
  intros He Hf w. exists [e]. cbn. rewrite Hf. split; [reflexivity |].
  now constructor.
Qed.

Lemma quiet_session_commit : quiet session_commit.
Proof.
  unfold session_commit.
  apply quiet_bind; [apply quiet_session_flush | intros _].
  apply quiet_bind; [apply quiet_db_roundtrip | intros _].
  now apply quiet_log.
Qed.

Lemma quiet_session_close : quiet session_close.
Proof. unfold session_close. now apply quiet_log. Qed.

Lemma quiet_datetime_now : quiet datetime_now.
Proof. now apply quiet_same_trace. Qed.

Lemma quiet_db_session {A} (body : M A) : quiet body -> quiet (db_session body).
Proof.
  intros Hb. unfold db_session, contextmanager, session_factory.
  apply quiet_bind; [apply quiet_ret | intros _].
  apply quiet_bind; [exact Hb | intros a].
  apply quiet_bind; [| intros _; apply quiet_ret].
  apply quiet_bind; [apply quiet_session_commit | intros _].
  apply quiet_session_close.
Qed.

Lemma quiet_commit_ratios : quiet commit_ratios.
Proof.
  unfold commit_ratios.
  apply quiet_bind; [apply quiet_gets | intros [r |]]; [| apply quiet_raise].
  apply quiet_if; [apply quiet_ret |].
  apply quiet_bind.
  - apply quiet_db_session, quiet_session_execute.
  - intros _. unfold ratios_manager_commit.
    apply quiet_bind; [apply quiet_gets | intros [r' |]];
      [| apply quiet_raise].
    now apply quiet_same_trace.
Qed.

Lemma quiet_prune_value_history : quiet prune_value_history.
Proof.
  unfold prune_value_history, reclassify, prune_expired.
  apply quiet_db_session.
  repeat first
    [ apply quiet_session_commit
    | apply quiet_session_execute
    | apply quiet_datetime_now
    | apply quiet_bind; [| intros ?] ].
Qed.

Lemma Forall_sleep_quiet sl :
  Forall (eq EvSleep) sl -> Forall (fun e => is_notify e = false) sl.
Proof.
  intros H. eapply Forall_impl; [| exact H]. now intros e <-.
Qed.

Ltac close_notified pre sl n Hn Hsl :=
  unfold notified_then_committed; wnorm;
  exists (pre ++ sl), n;
  split; [now rewrite <- !app_assoc |];
  split; [exact Hn |];
  apply Forall_app; split;
    [repeat constructor | exact (Forall_sleep_quiet sl Hsl)].

Ltac run_transition Hr :=
  py;
  apply returns_send_update; [exact Hr |];
  let n := fresh "n" in let sl := fresh "sl" in
  let c := fresh "c" in let a := fresh "a" in
  let Hn := fresh "Hn" in let Hsl := fresh "Hsl" in
  intros n sl c a Hn Hsl; wnorm;
  first [ eapply returns_session_commit_insert;
            [py_side | py_side | py_side | py_side | wnorm; py]
        | py ];
  close_notified (@nil Event) sl n Hn Hsl.

Lemma set_ordered_notified self x y z w :
  session_idle w -> no_faults w -> relay_answers w ->
  exists w',
    set_ordered self x y z w = (Ok tt, w') /\ notified_then_committed w w'.
Proof.
  intros Hs Hf Hr.
  destruct w as [d ss rm cs cl tr cr io ca e].
  unfold session_idle, no_faults in *. cbn in Hs, Hf. subst ss.
  apply returns_unit. unfold set_ordered, session_merge_trade.
  destruct (trade_id (tl_trade self)) as [i |].
  - py. destruct (find_trade i d) as [t |] eqn:Hfind.
    + pose proof (find_trade_id _ _ _ Hfind) as Ht.
      py. unfold session_save_trade. cbn [trade_id]. rewrite Ht.
      run_transition Hr.
    + py. unfold session_save_trade. cbn [trade_id blank_Trade].
      run_transition Hr.
  - py. unfold session_save_trade. cbn [trade_id blank_Trade].
    run_transition Hr.
Qed.

Lemma set_complete_notified self x w :
  session_idle w -> no_faults w -> relay_answers w ->
  exists w',
    set_complete self x w = (Ok tt, w') /\ notified_then_committed w w'.
Proof.
  intros Hs Hf Hr.
  destruct w as [d ss rm cs cl tr cr io ca e].
  unfold session_idle, no_faults in *. cbn in Hs, Hf. subst ss.
  apply returns_unit. unfold set_complete, session_merge_trade.
  destruct (trade_id (tl_trade self)) as [i |].
  - py. destruct (find_trade i d) as [t |] eqn:Hfind.
    + pose proof (find_trade_id _ _ _ Hfind) as Ht.
      py. unfold session_save_trade. cbn [trade_id]. rewrite Ht.
      run_transition Hr.
    + py. unfold session_save_trade. cbn [trade_id blank_Trade].
      run_transition Hr.
  - py. unfold session_save_trade. cbn [trade_id blank_Trade].
    run_transition Hr.
Qed.

Lemma start_trade_log_notified from_coin to_coin selling w :
  session_idle w -> no_faults w -> relay_answers w ->
  exists self w',
    start_trade_log from_coin to_coin selling w = (Ok self, w') /\
    notified_then_committed w w'.
Proof.
  intros Hs Hf Hr.
  destruct w as [d ss rm cs cl tr cr io ca e].
  unfold session_idle, no_faults in *. cbn in Hs, Hf. subst ss.
  enough (H : returns (start_trade_log from_coin to_coin selling)
                {| durable := d; session := fresh_session;
                   ratios_manager := rm; coin_stubs := cs; client := cl;
                   trace := tr; clock_reads := cr; io_count := io;
                   connect_attempts := ca; env := e |}
                (fun _ w' =>
                   notified_then_committed
                     {| durable := d; session := fresh_session;
                        ratios_manager := rm; coin_stubs := cs; client := cl;
                        trace := tr; clock_reads := cr; io_count := io;
                        connect_attempts := ca; env := e |} w')).
  { destruct H as (self & w' & H1 & H2). now exists self, w'. }
  unfold start_trade_log, new_Trade. py.
  eapply returns_session_flush_insert; try py_side. wnorm.
  run_transition Hr.
Qed.

Lemma set_current_coin_notified coin w :
  session_idle w -> no_faults w -> relay_answers w ->
  coin_arg_known coin (durable w) ->
  exists w',
    set_current_coin coin w = (Ok tt, w') /\ notified_then_committed w w'.
Proof.
  intros Hs Hf Hr Hk.
  destruct w as [d ss rm cs cl tr cr io ca e].
  unfold session_idle, no_faults in *. cbn in Hs, Hf. subst ss.
  apply returns_unit. unfold set_current_coin, get_coin.
  destruct coin as [c | s].
  - py. unfold session_merge_coin. py.
    destruct (find_coin (coin_symbol c) d) eqn:Hfind.
    + py. unfold new_CurrentCoin. run_transition Hr.
    + py. unfold new_CurrentCoin. py.
      apply returns_send_update; [exact Hr |].
      intros n sl c' a Hn Hsl. wnorm.
      eapply returns_session_commit_insert; try py_side.
      { cbn. rewrite (find_coin_none _ _ Hfind). reflexivity. }
      wnorm. py. close_notified (@nil Event) sl n Hn Hsl.
  - cbn in Hk. destruct (find_coin s d) as [c |] eqn:Hfind; [| now elim Hk].
    pose proof (find_coin_symbol _ _ _ Hfind) as Hsym. subst s.
    py. rewrite Hfind. py.
    apply returns_session_expunge.
    { cbn. now rewrite String.eqb_refl. }
    py. unfold session_merge_coin. py. rewrite Hfind. py.
    unfold new_CurrentCoin. py.
    apply returns_send_update; [exact Hr |].
    intros n sl c' a Hn Hsl. wnorm.
    eapply returns_session_commit_insert; try py_side.
    wnorm. py. close_notified [EvCommit; EvClose] sl n Hn Hsl.
Qed.

(** C4, as stated, fails: [set_ordered] on a connected client emits the
    change event first and commits afterwards, so the one notification of
    the run has no commit before it. *)
Lemma set_ordered_notifies_before_commit :
  let r := set_ordered Sample.tracker 1%float 2%float 3%float
             (Sample.world_connected Sample.env_online Sample.traded) in
  fst r = Ok tt /\
  (exists m, trace (snd r) = [EvEmit m; EvCommit; EvClose]) /\
  ~ notified_after_commit (trace (snd r)).
Proof.
  cbv zeta. split; [reflexivity |]. split.
  - eexists. vm_compute. reflexivity.
  - intros H.
    refine (H [] _ [EvCommit; EvClose] _ _).
    + vm_compute. reflexivity.
    + reflexivity.
Qed.

(** C4 (amended): [set_current_coin] and the three trade-lifecycle
    operations call [send_update] exactly once, inside the unit of work:
    the notification is followed by the commit and the close of that unit,
    never preceded by its commit; [commit_ratios] and
    [prune_value_history] send no notification at all. *)
Theorem notification_precedes_commit :
  (forall coin w,
     session_idle w -> no_faults w -> relay_answers w ->
     coin_arg_known coin (durable w) ->
     exists w',
       set_current_coin coin w = (Ok tt, w') /\
       notified_then_committed w w') /\
  (forall from_coin to_coin selling w,
     session_idle w -> no_faults w -> relay_answers w ->
     exists self w',
       start_trade_log from_coin to_coin selling w = (Ok self, w') /\
       notified_then_committed w w') /\
  (forall self x y z w,
     session_idle w -> no_faults w -> relay_answers w ->
     exists w',
       set_ordered self x y z w = (Ok tt, w') /\
       notified_then_committed w w') /\
  (forall self x w,
     session_idle w -> no_faults w -> relay_answers w ->
     exists w',
       set_complete self x w = (Ok tt, w') /\
       notified_then_committed w w') /\
  quiet commit_ratios /\
  quiet prune_value_history.
Proof.
  split; [exact set_current_coin_notified |].
  split; [exact start_trade_log_notified |].
  split; [exact set_ordered_notified |].
  split; [exact set_complete_notified |].
  split; [exact quiet_commit_ratios | exact quiet_prune_value_history].
Qed.

Lemma notification_precedes_commit_witness :
  let w := Sample.world_connected Sample.env_online Sample.traded in
  (exists w', set_current_coin (CoinSymbol "ETH") w = (Ok tt, w') /\
              notified_then_committed w w') /\
  (exists self w', start_trade_log "ETH" "BTC" false w = (Ok self, w') /\
                   notified_then_committed w w') /\
  (exists w', set_ordered Sample.tracker 1%float 2%float 3%float w
              = (Ok tt, w') /\
              notified_then_committed w w') /\
  (exists w', set_complete Sample.tracker 1%float w = (Ok tt, w') /\
              notified_then_committed w w').
Proof.
  cbv zeta.
  assert (Hi : session_idle
                 (Sample.world_connected Sample.env_online Sample.traded))
    by reflexivity.
  assert (Hf : no_faults
                 (Sample.world_connected Sample.env_online Sample.traded))
    by (intros n; reflexivity).
  assert (Hr : relay_answers
                 (Sample.world_connected Sample.env_online Sample.traded)).
  { left. split; [reflexivity |]. cbn. now left. }
  destruct notification_precedes_commit as (H1 & H2 & H3 & H4 & _).
  split; [apply (H1 (CoinSymbol "ETH") _ Hi Hf Hr); discriminate |].
  split; [exact (H2 "ETH" "BTC" false _ Hi Hf Hr) |].
  split; [exact (H3 Sample.tracker 1%float 2%float 3%float _ Hi Hf Hr) |].
  exact (H4 Sample.tracker 1%float _ Hi Hf Hr).
Defined.

(* ===================================================================== *)
(** ** Ratio matrix sync *)
(* ===================================================================== *)

(** [m] leaves the ratio matrix alone, however it ends. *)
Definition keeps_matrix {A} (m : M A) : Prop :=
  forall w, ratios_manager (snd (m w)) = ratios_manager w.

Lemma keeps_matrix_bind {A B} (m : M A) (k : A -> M B) :
  keeps_matrix m -> (forall a, keeps_matrix (k a)) -> keeps_matrix (bind m k).
Proof.
  intros Hm Hk w. specialize (Hm w). unfold bind.
  destruct (m w) as [[a | e |] w1]; cbn [snd] in *; try exact Hm.
  now rewrite Hk.
Qed.

Lemma keeps_matrix_db_roundtrip : keeps_matrix db_roundtrip.
Proof.
  intros w. unfold db_roundtrip.
  destruct (inactive (session w)); [reflexivity |].
  now destruct (fault_at (env w) (io_count w)).
Qed.

Lemma keeps_matrix_session_flush : keeps_matrix session_flush.
Proof.
  intros w. unfold session_flush.
  destruct (pending (session w)) as [| m ms]; [reflexivity |].
  pose proof (keeps_matrix_db_roundtrip w) as Hr.
  destruct (db_roundtrip w) as [[[] | e |] w1]; cbn [snd] in *; try exact Hr.
  now destruct (insert_models (m :: ms) (current_view w1)).
Qed.

Lemma keeps_matrix_session_execute stmt : keeps_matrix (session_execute stmt).
Proof.
  unfold session_execute.
  apply keeps_matrix_bind; [apply keeps_matrix_session_flush | intros _].
  apply keeps_matrix_bind; [apply keeps_matrix_db_roundtrip | intros _].
  apply keeps_matrix_bind; [now intros w | intros v]. now intros w.
Qed.

Lemma keeps_matrix_session_commit : keeps_matrix session_commit.
Proof.
  unfold session_commit.
  apply keeps_matrix_bind; [apply keeps_matrix_session_flush | intros _].
  apply keeps_matrix_bind; [apply keeps_matrix_db_roundtrip | intros _].
  now intros w.
Qed.

Lemma keeps_matrix_db_session {A} (body : M A) :
  keeps_matrix body -> keeps_matrix (db_session body).
Proof.
  intros Hb. unfold db_session, contextmanager, session_factory.
  apply keeps_matrix_bind; [now intros w | intros _].
  apply keeps_matrix_bind; [exact Hb | intros a].
  apply keeps_matrix_bind; [| now intros _ w].
  apply keeps_matrix_bind; [apply keeps_matrix_session_commit | intros _].
  now intros w.
Qed.

Lemma db_roundtrip_inv w w' :
  db_roundtrip w = (Ok tt, w') -> w' = tick_io w.
Proof.
  unfold db_roundtrip. destruct (inactive (session w)); [discriminate |].
  destruct (fault_at (env w) (io_count w)); [discriminate |].
  now intros [= <-].
Qed.

Lemma session_flush_inv w w' :
  session_flush w = (Ok tt, w') -> pending (session w') = [].
Proof.
  unfold session_flush.
  destruct (pending (session w)) as [| m ms] eqn:Hp.
  - now intros [= <-].
  - destruct (db_roundtrip w) as [[[] | e |] w1]; try discriminate.
    destruct (insert_models (m :: ms) (current_view w1)); [| discriminate].
    now intros [= <-].
Qed.

(** A statement that went through leaves its result in the view. *)
Lemma session_execute_inv stmt w w' :
  session_execute stmt w = (Ok tt, w') ->
  exists v, current_view w' = stmt v /\ pending (session w') = [].
Proof.
  unfold session_execute. intros H.
  apply bind_inv_ok in H. destruct H as ([] & w1 & Hfl & H).
  apply bind_inv_ok in H. destruct H as ([] & w2 & Hrt & H).
  apply db_roundtrip_inv in Hrt. subst w2.
  apply session_flush_inv in Hfl.
  cbv [bind gets modify] in H. injection H as <-.
  exists (current_view (tick_io w1)). split; [reflexivity | exact Hfl].
Qed.

(** A commit with nothing left to flush makes the view durable. *)
Lemma session_commit_inv w w' :
  pending (session w) = [] ->
  session_commit w = (Ok tt, w') -> durable w' = current_view w.
Proof.
  intros Hp. unfold session_commit.
  rewrite (bind_ok _ _ _ _ _ (session_flush_nothing w Hp)).
  intros H. apply bind_inv_ok in H. destruct H as ([] & w1 & Hrt & H).
  apply db_roundtrip_inv in Hrt. subst w1.
  cbv [modify] in H. injection H as <-. reflexivity.
Qed.

(** A unit of work that returned: its body returned, the commit went
    through, and the session was closed. *)
Lemma db_session_inv {A} (body : M A) w a w' :
  db_session body w = (Ok a, w') ->
  exists w1 w2,
    body w = (Ok a, w1) /\
    session_commit w1 = (Ok tt, w2) /\
    w' = log_event EvClose (with_session fresh_session w2).
Proof.
  unfold db_session, contextmanager, session_factory. intros H.
  apply bind_inv_ok in H. destruct H as ([] & w0 & H0 & H).
  cbv [ret] in H0. injection H0 as <-.
  apply bind_inv_ok in H. destruct H as (a1 & w1 & Hb & H).
  apply bind_inv_ok in H. destruct H as ([] & w3 & Hl & H).
  cbv [ret] in H. injection H as <- <-.
  apply bind_inv_ok in Hl. destruct Hl as ([] & w2 & Hc & Hl).
  cbv [session_close modify] in Hl. injection Hl as <-.
  now exists w1, w2.
Qed.

(** One parameter set applied to one row. *)
Definition update_one (params : Z * float) (p : Pair) : Pair :=
  match pair_id p with
  | Some i =>
      if i =? fst params
      then mk_Pair (pair_id p) (pair_from_coin_id p) (pair_to_coin_id p)
                   (Some (snd params)) (pair_enabled p)
      else p
  | None => p
  end.

Lemma update_one_id prm p : pair_id (update_one prm p) = pair_id p.
Proof.
  unfold update_one. destruct (pair_id p) as [i |] eqn:Hi; [| exact Hi].
  destruct (i =? fst prm); [reflexivity | exact Hi].
Qed.

Lemma fold_update_rows params ps :
  fold_left (fun t prm => update_pair_ratio prm t) params ps
  = map (fun p => fold_left (fun q prm => update_one prm q) params p) ps.
Proof.
  revert ps. induction params as [| a l IH]; intros ps; cbn [fold_left].
  - now rewrite map_id.
  - rewrite IH. unfold update_pair_ratio. rewrite map_map. reflexivity.
Qed.

Lemma fold_update_id params p :
  pair_id (fold_left (fun q prm => update_one prm q) params p) = pair_id p.
Proof.
  revert p. induction params as [| a l IH]; intros p; cbn [fold_left].
  - reflexivity.
  - now rewrite IH, update_one_id.
Qed.

(** A ratio already written stays, as long as every later parameter set
    for that identity carries the same value. *)
Lemma fold_update_stable params p i x :
  pair_id p = Some i -> pair_ratio p = Some x ->
  (forall prm, In prm params -> fst prm = i -> snd prm = x) ->
  pair_ratio (fold_left (fun q prm => update_one prm q) params p) = Some x.
Proof.
  revert p. induction params as [| a l IH]; intros p Hid Hr Hall;
    cbn [fold_left].
  - exact Hr.
  - apply IH.
    + now rewrite update_one_id.
    + unfold update_one. rewrite Hid.
      destruct (i =? fst a) eqn:Hia; [| exact Hr].
      apply Z.eqb_eq in Hia. cbn [pair_ratio]. f_equal.
      apply Hall; [now left | now symmetry].
    + intros prm Hin. apply Hall. now right.
Qed.

Lemma fold_update_written params p prm :
  In prm params -> pair_id p = Some (fst prm) ->
  (forall a b, In a params -> In b params -> fst a = fst b -> snd a = snd b) ->
  pair_ratio (fold_left (fun q prm => update_one prm q) params p)
  = Some (snd prm).
Proof.
  revert p. induction params as [| a l IH]; intros p Hin Hid Hu;
    [destruct Hin |].
  cbn [fold_left]. destruct Hin as [-> | Hin].
  - apply (fold_update_stable l _ (fst prm)).
    + now rewrite update_one_id.
    + unfold update_one. rewrite Hid, Z.eqb_refl. reflexivity.
    + intros b Hb Hfst. apply (Hu b prm); [now right | now left | exact Hfst].
  - apply IH; [exact Hin | now rewrite update_one_id |].
    intros x y Hx Hy. apply Hu; now right.
Qed.

(** C1: when [commit_ratios] returns, every durable [Pair] row with the
    identity of a dirty cell holds that cell's ratio, and the dirty set has
    been cleared; when it ends in any other way (an exception from the
    batched update or from the commit, or no return at all), the ratio
    matrix, its dirty set included, is as it was.  So a cell is marked
    clean only after its value is durable.  Distinct dirty cells are
    assumed to have distinct pair identities. *)
Theorem commit_ratios_writes_then_clears (w : World) (rm : RatiosManager) :
  ratios_manager w = Some rm ->
  (forall c1 c2,
     In c1 (rm_dirty rm) -> In c2 (rm_dirty rm) ->
     rm_pair_id rm (fst c1) (snd c1) = rm_pair_id rm (fst c2) (snd c2) ->
     c1 = c2) ->
  (forall w',
     commit_ratios w = (Ok tt, w') ->
     (forall c p,
        In c (rm_dirty rm) -> In p (pairs (durable w')) ->
        pair_id p = Some (rm_pair_id rm (fst c) (snd c)) ->
        pair_ratio p = Some (rm_value rm (fst c) (snd c))) /\
     ratios_manager w'
     = Some (mk_RatiosManager (rm_pairs rm) [] (rm_pair_id rm) (rm_value rm))) /\
  (forall r w',
     commit_ratios w = (r, w') -> r <> Ok tt -> ratios_manager w' = Some rm).
Proof.
  intros Hrm Hinj. split.
  - intros w' Hrun. unfold commit_ratios in Hrun.
    cbv [bind gets] in Hrun. rewrite Hrm in Hrun.
    destruct (rm_dirty rm) as [| c0 cells] eqn:Hd.
    + cbn in Hrun. injection Hrun as <-. split; [intros c p [] |].
      rewrite Hrm. destruct rm. cbn in Hd. now subst.
    + cbn [List.length Nat.eqb] in Hrun.
      match type of Hrun with
      | context [db_session (session_execute ?st) w] =>
          pose proof (keeps_matrix_db_session _
                        (keeps_matrix_session_execute st) w) as Hk
      end.
      destruct (db_session _ w) as [[[] | e |] w1] eqn:Hdb; try discriminate.
      cbn [snd] in Hk. rewrite Hrm in Hk.
      unfold ratios_manager_commit in Hrun. cbv [bind gets] in Hrun.
      rewrite Hk in Hrun. cbv [modify] in Hrun. injection Hrun as <-.
      split; [| reflexivity].
      apply db_session_inv in Hdb. destruct Hdb as (wa & wb & Hex & Hc & ->).
      apply session_execute_inv in Hex. destruct Hex as (v & Hv & Hp).
      apply (session_commit_inv _ _ Hp) in Hc.
      cbn [durable with_ratios_manager log_event with_session].
      rewrite Hc, Hv. cbn [pairs with_pairs].
      rewrite fold_update_rows. intros c p Hc0 Hin Hid.
      apply in_map_iff in Hin. destruct Hin as (p0 & <- & Hin).
      rewrite fold_update_id in Hid.
      apply (fold_update_written (ratio_params rm) p0
               (rm_pair_id rm (fst c) (snd c), rm_value rm (fst c) (snd c))).
      * unfold ratio_params. rewrite Hd. apply in_map_iff. now exists c.
      * exact Hid.
      * unfold ratio_params. rewrite Hd. intros a b Ha Hb Hab.
        apply in_map_iff in Ha. destruct Ha as (ca & <- & Ha).
        apply in_map_iff in Hb. destruct Hb as (cb & <- & Hb).
        cbn [fst snd] in *. now rewrite (Hinj ca cb Ha Hb Hab).
  - intros r w' Hrun Hne. unfold commit_ratios in Hrun.
    cbv [bind gets] in Hrun. rewrite Hrm in Hrun.
    destruct (Nat.eqb (List.length (rm_dirty rm)) 0).
    + cbv [ret] in Hrun. injection Hrun as <- <-. now elim Hne.
    + pose proof (keeps_matrix_db_session _
                    (keeps_matrix_session_execute
                       (with_pairs (fun ps =>
                          fold_left (fun t prm => update_pair_ratio prm t)
                                    (ratio_params rm) ps))) w) as Hk.
      destruct (db_session _ w) as [[[] | e |] w1]; cbn [snd] in Hk.
      * unfold ratios_manager_commit in Hrun. cbv [bind gets] in Hrun.
        rewrite Hk, Hrm in Hrun. cbv [modify] in Hrun.
        injection Hrun as <- <-. now elim Hne.
      * injection Hrun as <- <-. now rewrite Hk.
      * injection Hrun as <- <-. now rewrite Hk.
Qed.

Lemma commit_ratios_writes_then_clears_witness :
  let w_ok := with_ratios_manager (Some Sample.dirty_matrix)
                (Sample.world Sample.env_offline Sample.btc_eth) in
  let w_down := with_ratios_manager (Some Sample.dirty_matrix)
                  (Sample.world Sample.env_failing Sample.btc_eth) in
  (map pair_ratio (pairs (durable (snd (commit_ratios w_ok))))
   = [Some 4%float; Some 0.25%float] /\
   option_map rm_dirty (ratios_manager (snd (commit_ratios w_ok))) = Some []) /\
  (fst (commit_ratios w_down) = Raise OperationalError /\
   ratios_manager (snd (commit_ratios w_down)) = Some Sample.dirty_matrix).
Proof.
  cbv zeta.
  assert (Hinj : forall c1 c2,
            In c1 (rm_dirty Sample.dirty_matrix) ->
            In c2 (rm_dirty Sample.dirty_matrix) ->
            rm_pair_id Sample.dirty_matrix (fst c1) (snd c1)
            = rm_pair_id Sample.dirty_matrix (fst c2) (snd c2) ->
            c1 = c2).
  { intros c1 c2 [<- | [<- | []]] [<- | [<- | []]] H;
      first [reflexivity | discriminate H]. }
  assert (Hok : commit_ratios
                  (with_ratios_manager (Some Sample.dirty_matrix)
                     (Sample.world Sample.env_offline Sample.btc_eth))
                = (Ok tt,
                   snd (commit_ratios
                          (with_ratios_manager (Some Sample.dirty_matrix)
                             (Sample.world Sample.env_offline
                                           Sample.btc_eth)))))
    by (vm_compute; reflexivity).
  assert (Hdown : commit_ratios
                    (with_ratios_manager (Some Sample.dirty_matrix)
                       (Sample.world Sample.env_failing Sample.btc_eth))
                  = (Raise OperationalError,
                     snd (commit_ratios
                            (with_ratios_manager (Some Sample.dirty_matrix)
                               (Sample.world Sample.env_failing
                                             Sample.btc_eth)))))
    by (vm_compute; reflexivity).
  split.
  - destruct (proj1 (commit_ratios_writes_then_clears
                       (with_ratios_manager (Some Sample.dirty_matrix)
                          (Sample.world Sample.env_offline Sample.btc_eth))
                       Sample.dirty_matrix eq_refl Hinj)
                    _ Hok) as [_ Hclean].
    split; [vm_compute; reflexivity |]. now rewrite Hclean.
  - split; [vm_compute; reflexivity |].
    apply (proj2 (commit_ratios_writes_then_clears
                    (with_ratios_manager (Some Sample.dirty_matrix)
                       (Sample.world Sample.env_failing Sample.btc_eth))
                    Sample.dirty_matrix eq_refl Hinj)
                 (Raise OperationalError) _ Hdown).
    discriminate.
Defined.

(* ===================================================================== *)
(** ** Retention engine: reclassification *)
(* ===================================================================== *)

(** The tag a row ends with after the three updates, given the ids each
    update selected: the last pass that selected the row wins. *)
Definition tag_by_pass (hourly_ids daily_ids weekly_ids : list Z)
    (r : CoinValue) : CoinValue :=
  if existsb (Z.eqb (cv_id r)) weekly_ids then set_interval WEEKLY r
  else if existsb (Z.eqb (cv_id r)) daily_ids then set_interval DAILY r
  else if existsb (Z.eqb (cv_id r)) hourly_ids then set_interval HOURLY r
  else r.

(** The table after the three updates. *)
Definition reclassified (rows : list CoinValue) : list CoinValue :=
  weekly_update_query (daily_update_query (hourly_update_query rows)).

Lemma tag_by_pass_compose (H D W : list Z) rows :
  map (fun r => if existsb (Z.eqb (cv_id r)) W
                then set_interval WEEKLY r else r)
    (map (fun r => if existsb (Z.eqb (cv_id r)) D
                   then set_interval DAILY r else r)
       (map (fun r => if existsb (Z.eqb (cv_id r)) H
                      then set_interval HOURLY r else r) rows))
  = map (tag_by_pass H D W) rows.
Proof.
  rewrite !map_map. apply map_ext. intros r. unfold tag_by_pass.
  destruct (existsb (Z.eqb (cv_id r)) H);
    destruct (existsb (Z.eqb (cv_id r)) D) eqn:HD;
    cbn [set_interval cv_id]; rewrite ?HD;
    destruct (existsb (Z.eqb (cv_id r)) W) eqn:HW;
    cbn [set_interval cv_id]; rewrite ?HW; reflexivity.
Qed.

Lemma reclassified_by_pass rows :
  reclassified rows
  = map (tag_by_pass
           (_datetime_id_query "%H" rows)
           (_datetime_id_query "%Y-%j" (hourly_update_query rows))
           (_datetime_id_query "%Y-%W"
              (daily_update_query (hourly_update_query rows))))
        rows.
Proof.
  exact (tag_by_pass_compose
           (_datetime_id_query "%H" rows)
           (_datetime_id_query "%Y-%j" (hourly_update_query rows))
           (_datetime_id_query "%Y-%W"
              (daily_update_query (hourly_update_query rows)))
           rows).
Qed.

Lemma reclassify_run w :
  session_idle w -> no_faults w ->
  exists w',
    reclassify w = (Ok tt, w') /\
    durable w' = with_coin_values reclassified (durable w) /\
    current_view w' = durable w' /\
    pending (session w') = [] /\ inactive (session w') = false /\
    env w' = env w /\ clock_reads w' = clock_reads w /\ trace w' = trace w ++ [EvCommit].
Proof.
  intros Hs Hf.
  destruct w as [d ss rm cs cl tr cr io ca e].
  unfold session_idle, no_faults in *. cbn in Hs, Hf. subst ss.
  apply returns_unit. unfold reclassify. py.
  repeat split; reflexivity.
Qed.

(** C5, as stated, fails: three raw samples of one asset inside one hour
    all end the pass tagged weekly; none is hourly and none stays raw. *)
Lemma reclassify_three_raw_samples :
  let sample m :=
    mk_CoinValue (Z.of_nat m) "BTC" 1%float 2%float 3%float MINUTELY
                 (mk_datetime 2024 5 17 9 (10 * Z.of_nat m) 0 0) in
  let w := Sample.world Sample.env_offline
             (with_coin_values (fun _ => [sample 1%nat; sample 2%nat; sample 3%nat])
                               Sample.btc_eth) in
  fst (reclassify w) = Ok tt /\
  map cv_interval (coin_values (durable (snd (reclassify w))))
  = [WEEKLY; WEEKLY; WEEKLY] /\
  map cv_interval (coin_values (durable (snd (reclassify w))))
  <> [MINUTELY; MINUTELY; HOURLY].
Proof.
  cbv zeta. split; [reflexivity |]. split; [reflexivity |].
  vm_compute. discriminate.
Qed.

(** C5 (amended): the reclassification does not look at the tag a sample
    carries: its three updates run over the whole table in the order hourly,
    daily, weekly, each relabelling every sample its bucket query selects;
    a sample ends with the tag of the last update that selected it (weekly
    before daily before hourly) and keeps its tag when none did; the result
    is committed. *)
Theorem reclassify_tags_by_last_pass (w : World) :
  session_idle w -> no_faults w ->
  exists w',
    reclassify w = (Ok tt, w') /\
    coin_values (durable w')
    = map (tag_by_pass
             (_datetime_id_query "%H" (coin_values (durable w)))
             (_datetime_id_query "%Y-%j"
                (hourly_update_query (coin_values (durable w))))
             (_datetime_id_query "%Y-%W"
                (daily_update_query
                   (hourly_update_query (coin_values (durable w))))))
          (coin_values (durable w)).
Proof.
  intros Hs Hf.
  destruct (reclassify_run w Hs Hf) as (w' & Hrun & Hd & _).
  exists w'. split; [exact Hrun |].
  rewrite Hd. cbn [coin_values with_coin_values].
  apply reclassified_by_pass.
Qed.

Lemma reclassify_tags_by_last_pass_witness :
  let rows :=
    [mk_CoinValue 1 "BTC" 1%float 2%float 3%float MINUTELY
                  (mk_datetime 2024 5 17 9 10 0 0);
     mk_CoinValue 2 "BTC" 1%float 2%float 3%float DAILY
                  (mk_datetime 2023 1 2 9 20 0 0)] in
  exists w',
    reclassify (Sample.world Sample.env_offline
                  (with_coin_values (fun _ => rows) Sample.btc_eth))
    = (Ok tt, w') /\
    map cv_id (coin_values (durable w')) = [1; 2].
Proof.
  cbv zeta.
  destruct (reclassify_tags_by_last_pass
              (Sample.world Sample.env_offline
                 (with_coin_values (fun _ =>
                    [mk_CoinValue 1 "BTC" 1%float 2%float 3%float MINUTELY
                                  (mk_datetime 2024 5 17 9 10 0 0);
                     mk_CoinValue 2 "BTC" 1%float 2%float 3%float DAILY
                                  (mk_datetime 2023 1 2 9 20 0 0)])
                    Sample.btc_eth)))
    as (w' & Hrun & Hrows).
  - reflexivity.
  - intros n. reflexivity.
  - exists w'. split; [exact Hrun |]. rewrite Hrows. reflexivity.
Defined.

(** *** What the grouped select returns *)

Section Grouping.

Context {A : Type} (same : A -> A -> bool) (key : A -> Z).
Hypothesis same_key : forall a b, same a b = true -> key a = key b.

(** All the rows of a group share the key. *)
Definition uniform (gs : list (list A)) : Prop :=
  forall g, In g gs -> forall a b, In a g -> In b g -> key a = key b.

Lemma group_insert_uniform x gs :
  uniform gs -> uniform (group_insert same x gs).
Proof.
  induction gs as [| g gs IH]; intros Hu; cbn [group_insert].
  - intros g [<- | []] a b [<- | []] [<- | []]. reflexivity.
  - assert (Hu' : uniform gs) by (intros g' Hg'; apply Hu; now right).
    assert (Hg : forall a b, In a g -> In b g -> key a = key b)
      by (apply Hu; now left).
    destruct g as [| y g0].
    + intros g' [<- | Hg'].
      * intros a b [].
      * now apply IH.
    + destruct (same y x) eqn:Hyx.
      * intros g' [<- | Hg'].
        -- intros a b Ha Hb.
           assert (Hy : forall c, In c ((y :: g0) ++ [x]) -> key c = key y).
           { intros c Hc. apply in_app_or in Hc. destruct Hc as [Hc | [<- | []]].
             - apply Hg; [exact Hc | now left].
             - symmetry. now apply same_key. }
           now rewrite (Hy a Ha), (Hy b Hb).
        -- now apply Hu'.
      * intros g' [<- | Hg'].
        -- exact Hg.
        -- now apply IH.
Qed.

Lemma group_insert_covers x gs :
  In x (List.concat (group_insert same x gs)) /\
  (forall y, In y (List.concat gs) -> In y (List.concat (group_insert same x gs))).
Proof.
  induction gs as [| g gs [IH1 IH2]]; cbn [group_insert].
  - split; [now left | intros y []].
  - destruct g as [| z g0].
    + cbn [List.concat app]. split; [exact IH1 | exact IH2].
    + destruct (same z x).
      * cbn [List.concat]. split.
        -- apply in_or_app. left. apply in_or_app. right. now left.
        -- intros y Hy. apply in_app_or in Hy. apply in_or_app.
           destruct Hy as [Hy | Hy]; [left | now right].
           apply in_or_app. now left.
      * cbn [List.concat]. split.
        -- apply in_or_app. now right.
        -- intros y Hy. apply in_app_or in Hy. apply in_or_app.
           destruct Hy as [Hy | Hy]; [now left | right; now apply IH2].
Qed.

Lemma group_fold_spec rows gs :
  uniform gs ->
  uniform (fold_left (fun acc x => group_insert same x acc) rows gs) /\
  (forall y, In y rows \/ In y (List.concat gs) ->
     In y (List.concat (fold_left (fun acc x => group_insert same x acc) rows gs))).
Proof.
  revert gs. induction rows as [| x rows IH]; intros gs Hu; cbn [fold_left].
  - split; [exact Hu | intros y [[] | Hy]; exact Hy].
  - destruct (IH (group_insert same x gs) (group_insert_uniform x gs Hu))
      as [IHu IHc].
    destruct (group_insert_covers x gs) as [Hx Hold].
    split; [exact IHu |].
    intros y [[<- | Hy] | Hy]; apply IHc; auto.
Qed.

Lemma group_by_spec rows :
  uniform (group_by same rows) /\
  (forall y, In y rows -> exists g, In g (group_by same rows) /\ In y g).
Proof.
  destruct (group_fold_spec rows []) as [Hu Hc].
  { intros g []. }
  split; [exact Hu |].
  intros y Hy. apply in_concat. apply Hc. now left.
Qed.

End Grouping.

Lemma latest_member g :
  forall acc,
    match fold_left (fun acc r =>
            match acc with
            | None => Some r
            | Some a => if dt_ltb (cv_datetime a) (cv_datetime r) then Some r
                        else Some a
            end) g acc with
    | Some r => acc = Some r \/ In r g
    | None => acc = None /\ g = []
    end.
Proof.
  induction g as [| x g IH]; intros acc; cbn [fold_left].
  - destruct acc; [now left | now split].
  - specialize (IH (match acc with
                    | None => Some x
                    | Some a => if dt_ltb (cv_datetime a) (cv_datetime x)
                                then Some x else Some a
                    end)).
    destruct (fold_left _ g _) as [r |].
    + destruct IH as [IH | IH]; [| right; now right].
      destruct acc as [a |].
      * destruct (dt_ltb (cv_datetime a) (cv_datetime x)).
        -- injection IH as <-. right. now left.
        -- now left.
      * injection IH as <-. right. now left.
    + destruct IH as [IH _]. destruct acc as [a |]; [| discriminate].
      now destruct (dt_ltb (cv_datetime a) (cv_datetime x)).
Qed.

Lemma group_key_same_id fmt a b :
  group_key_eqb fmt a b = true -> cv_id a = cv_id b.
Proof.
  unfold group_key_eqb. intros H.
  apply andb_prop in H. destruct H as [H _].
  apply andb_prop in H. destruct H as [_ H].
  unfold CoinValue_eqb in H.
  repeat (apply andb_prop in H; destruct H as [H _]).
  now apply Z.eqb_eq.
Qed.

(** The primary key is among the grouping columns, so every group is made
    of rows with one id, and the select returns the id of every row. *)
Lemma _datetime_id_query_every_row fmt rows r :
  In r rows -> In (cv_id r) (_datetime_id_query fmt rows).
Proof.
  intros Hr. unfold _datetime_id_query.
  destruct (group_by_spec (group_key_eqb fmt) cv_id (group_key_same_id fmt) rows)
    as [Hu Hc].
  destruct (Hc r Hr) as (g & Hg & Hrg).
  apply in_flat_map. exists g. split; [exact Hg |].
  unfold latest. pose proof (latest_member g None) as Hl.
  destruct (fold_left _ g None) as [r' |].
  - destruct Hl as [Hl | Hl]; [discriminate |].
    left. now apply (Hu g Hg).
  - destruct Hl as [_ ->]. destruct Hrg.
Qed.

Lemma existsb_mem i ids : In i ids -> existsb (Z.eqb i) ids = true.
Proof.
  intros H. apply existsb_exists. exists i. split; [exact H | apply Z.eqb_refl].
Qed.

Lemma _update_query_every_row fmt i rows :
  _update_query (_datetime_id_query fmt) i rows = map (set_interval i) rows.
Proof.
  unfold _update_query. apply map_ext_in. intros r Hr.
  now rewrite (existsb_mem _ _ (_datetime_id_query_every_row fmt rows r Hr)).
Qed.

(** Each update therefore relabels the whole table, and the last one leaves
    every sample tagged weekly. *)
Lemma reclassified_all_weekly rows :
  reclassified rows = map (set_interval WEEKLY) rows.
Proof.
  unfold reclassified, weekly_update_query, daily_update_query,
    hourly_update_query.
  rewrite !_update_query_every_row, !map_map. reflexivity.
Qed.

(* ===================================================================== *)
(** ** Retention engine: pruning *)
(* ===================================================================== *)

(** A row passes the three deletes, run against the clock readings
    [now1], [now2], [now3] in this order: it is not a raw sample older than
    one day, not an hourly sample older than one month, not a daily sample
    older than one year. *)
Definition survives_pruning (now1 now2 now3 : datetime) (r : CoinValue)
    : Prop :=
  expired MINUTELY (sub_relativedelta now1 0 0 1) r = false /\
  expired HOURLY (sub_relativedelta now2 0 1 0) r = false /\
  expired DAILY (sub_relativedelta now3 1 0 0) r = false.

Lemma In_three_deletes t1 t2 t3 rows r :
  In r (filter (fun r => negb (expired DAILY t3 r))
          (filter (fun r => negb (expired HOURLY t2 r))
             (filter (fun r => negb (expired MINUTELY t1 r)) rows)))
  <-> In r rows /\
      expired MINUTELY t1 r = false /\
      expired HOURLY t2 r = false /\
      expired DAILY t3 r = false.
Proof.
  rewrite !filter_In, !negb_true_iff. tauto.
Qed.

Lemma weekly_never_expired i t r :
  cv_interval r = WEEKLY -> i <> WEEKLY -> expired i t r = false.
Proof.
  intros Hr Hi. unfold expired. rewrite Hr. now destruct i.
Qed.

Lemma prune_expired_run w :
  pending (session w) = [] -> inactive (session w) = false -> no_faults w ->
  exists w',
    prune_expired w = (Ok tt, w') /\
    coin_values (current_view w')
    = filter (fun r => negb (expired DAILY
                (sub_relativedelta
                   (wall_clock (env w) (S (S (clock_reads w)))) 1 0 0) r))
        (filter (fun r => negb (expired HOURLY
                   (sub_relativedelta
                      (wall_clock (env w) (S (clock_reads w))) 0 1 0) r))
           (filter (fun r => negb (expired MINUTELY
                      (sub_relativedelta
                         (wall_clock (env w) (clock_reads w)) 0 0 1) r))
              (coin_values (current_view w)))).
Proof.
  intros Hp Hi Hf.
  destruct w as [d [tx pe im ina] rm cs cl tr cr io ca e].
  unfold no_faults in Hf. cbn in Hp, Hi, Hf. subst pe ina.
  apply returns_unit. unfold prune_expired. py. reflexivity.
Qed.

Lemma prune_value_history_run w :
  session_idle w -> no_faults w ->
  exists w',
    prune_value_history w = (Ok tt, w') /\
    coin_values (durable w')
    = filter (fun r => negb (expired DAILY
                (sub_relativedelta
                   (wall_clock (env w) (S (S (clock_reads w)))) 1 0 0) r))
        (filter (fun r => negb (expired HOURLY
                   (sub_relativedelta
                      (wall_clock (env w) (S (clock_reads w))) 0 1 0) r))
           (filter (fun r => negb (expired MINUTELY
                      (sub_relativedelta
                         (wall_clock (env w) (clock_reads w)) 0 0 1) r))
              (reclassified (coin_values (durable w))))).
Proof.
  intros Hs Hf.
  destruct w as [d ss rm cs cl tr cr io ca e].
  unfold session_idle, no_faults in *. cbn in Hs, Hf. subst ss.
  apply returns_unit. unfold prune_value_history, reclassify, prune_expired.
  py. reflexivity.
Qed.

(** C6: the pruning step deletes exactly the raw samples older than one
    day, the hourly samples older than one month and the daily samples
    older than one year, each measured against a reading of the clock taken
    for that delete, in this order; a weekly sample is never deleted.  In
    [prune_value_history] the step runs on the table as the
    reclassification left it, and its result is what becomes durable. *)
Theorem prune_expired_retention_windows :
  (forall w,
     pending (session w) = [] -> inactive (session w) = false ->
     no_faults w ->
     exists w',
       prune_expired w = (Ok tt, w') /\
       (forall r,
          In r (coin_values (current_view w')) <->
          In r (coin_values (current_view w)) /\
          survives_pruning (wall_clock (env w) (clock_reads w))
                           (wall_clock (env w) (S (clock_reads w)))
                           (wall_clock (env w) (S (S (clock_reads w)))) r) /\
       (forall r,
          In r (coin_values (current_view w)) -> cv_interval r = WEEKLY ->
          In r (coin_values (current_view w')))) /\
  (forall w,
     session_idle w -> no_faults w ->
     exists w',
       prune_value_history w = (Ok tt, w') /\
       (forall r,
          In r (coin_values (durable w')) <->
          In r (reclassified (coin_values (durable w))) /\
          survives_pruning (wall_clock (env w) (clock_reads w))
                           (wall_clock (env w) (S (clock_reads w)))
                           (wall_clock (env w) (S (S (clock_reads w)))) r) /\
       (forall r,
          In r (reclassified (coin_values (durable w))) ->
          cv_interval r = WEEKLY ->
          In r (coin_values (durable w')))).
Proof.
  split.
  - intros w Hp Hi Hf.
    destruct (prune_expired_run w Hp Hi Hf) as (w' & Hrun & Hrows).
    exists w'. split; [exact Hrun |]. rewrite Hrows. split.
    + intros r. apply In_three_deletes.
    + intros r Hr Hw. apply In_three_deletes. split; [exact Hr |].
      repeat split; apply weekly_never_expired; auto; discriminate.
  - intros w Hs Hf.
    destruct (prune_value_history_run w Hs Hf) as (w' & Hrun & Hrows).
    exists w'. split; [exact Hrun |]. rewrite Hrows. split.
    + intros r. apply In_three_deletes.
    + intros r Hr Hw. apply In_three_deletes. split; [exact Hr |].
      repeat split; apply weekly_never_expired; auto; discriminate.
Qed.

Lemma prune_expired_retention_windows_witness :
  let w := Sample.world Sample.env_offline Sample.history in
  (exists w',
     prune_expired w = (Ok tt, w') /\
     map cv_id (coin_values (current_view w')) = [2; 4; 6; 7]) /\
  (exists w',
     prune_value_history w = (Ok tt, w') /\
     In (Sample.sample_value 7 WEEKLY 2018 1 1) (coin_values (durable w'))).
Proof.
  cbv zeta.
  assert (Hi : session_idle (Sample.world Sample.env_offline Sample.history))
    by reflexivity.
  assert (Hf : no_faults (Sample.world Sample.env_offline Sample.history))
    by (intros n; reflexivity).
  destruct prune_expired_retention_windows as [Hstep Hpass]. split.
  - destruct (Hstep (Sample.world Sample.env_offline Sample.history)
                    eq_refl eq_refl Hf) as (w' & Hrun & _ & _).
    exists w'. split; [exact Hrun |].
    assert (Hw : w' = snd (prune_expired
                             (Sample.world Sample.env_offline Sample.history)))
      by now rewrite Hrun.
    rewrite Hw. reflexivity.
  - destruct (Hpass _ Hi Hf) as (w' & Hrun & _ & Hweekly).
    exists w'. split; [exact Hrun |].
    apply Hweekly; [| reflexivity].
    rewrite reclassified_all_weekly. cbn. tauto.
Defined.

(* ===================================================================== *)
(** ** Scout log batches *)
(* ===================================================================== *)

Lemma insert_scout_rows_spec mks tbl :
  exists new,
    insert_scout_rows mks tbl = tbl ++ new /\
    Forall2 (fun (mk : Z -> ScoutHistory) r => exists id, r = mk id) mks new.
Proof.
  unfold insert_scout_rows. revert tbl.
  induction mks as [| mk mks IH]; intros tbl; cbn [fold_left].
  - exists []. split; [now rewrite app_nil_r | constructor].
  - destruct (IH (tbl ++ [mk (next_rowid (map sh_id tbl))]))
      as (new & Heq & Hall).
    exists (mk (next_rowid (map sh_id tbl)) :: new). split.
    + rewrite Heq, <- app_assoc. reflexivity.
    + constructor; [now eexists | exact Hall].
Qed.

Lemma batch_log_scout_run (l : LogScout) (logs : list LogScout) w :
  pending (session w) = [] -> inactive (session w) = false -> no_faults w ->
  exists w',
    batch_log_scout (l :: logs) w = (Ok tt, w') /\
    scout_history (durable w')
    = insert_scout_rows
        (map (scout_row (wall_clock (env w) (clock_reads w))) (l :: logs))
        (scout_history (current_view w)) /\
    clock_reads w' = S (clock_reads w).
Proof.
  intros Hp Hi Hf.
  destruct w as [d [tx pe im ina] rm cs cl tr cr io ca e].
  unfold no_faults in Hf. cbn in Hp, Hi, Hf. subst pe ina.
  apply returns_unit. unfold batch_log_scout. py. split; reflexivity.
Qed.

(** C10: one call of [batch_log_scout] reads the clock once, and every row
    it inserts for a record of the batch carries that reading; whatever the
    batch, the rows one call inserts all carry the same timestamp. *)
Theorem batch_log_scout_single_timestamp (logs : list LogScout) (w : World) :
  pending (session w) = [] -> inactive (session w) = false -> no_faults w ->
  (logs <> [] ->
   exists w' new,
     batch_log_scout logs w = (Ok tt, w') /\
     scout_history (durable w') = scout_history (current_view w) ++ new /\
     Forall2 (fun ls r =>
                exists id,
                  r = scout_row (wall_clock (env w) (clock_reads w)) ls id)
             logs new /\
     clock_reads w' = S (clock_reads w)) /\
  (forall w',
     batch_log_scout logs w = (Ok tt, w') ->
     exists new dt,
       scout_history (durable w') = scout_history (current_view w) ++ new /\
       Forall (fun r => sh_datetime r = dt) new).
Proof.
  intros Hp Hi Hf.
  assert (Hfull : forall l ls,
            exists w' new,
              batch_log_scout (l :: ls) w = (Ok tt, w') /\
              scout_history (durable w')
              = scout_history (current_view w) ++ new /\
              Forall2 (fun x r =>
                         exists id,
                           r = scout_row (wall_clock (env w) (clock_reads w))
                                         x id)
                      (l :: ls) new /\
              clock_reads w' = S (clock_reads w)).
  { intros l ls.
    destruct (batch_log_scout_run l ls w Hp Hi Hf) as (w' & Hrun & Hrows & Hc).
    destruct (insert_scout_rows_spec
                (map (scout_row (wall_clock (env w) (clock_reads w))) (l :: ls))
                (scout_history (current_view w))) as (new & Heq & Hall).
    exists w', new. split; [exact Hrun |].
    split; [now rewrite Hrows, Heq |].
    split; [| exact Hc].
    clear Heq Hrows. revert Hall. generalize (l :: ls). intros xs.
    revert new.
    induction xs as [| x xs IH]; intros new Hall; cbn [map] in Hall.
    - inversion Hall. constructor.
    - inversion Hall as [| ? r ? new' Hr Hrest]. subst.
      constructor; [exact Hr | now apply IH]. }
  split.
  - intros Hne. destruct logs as [| l ls]; [now elim Hne |]. apply Hfull.
  - intros w' Hrun. destruct logs as [| l ls].
    + destruct w as [d [tx pe im ina] rm cs cl tr cr io ca e].
      unfold no_faults in Hf. cbn in Hp, Hi, Hf. subst pe ina.
      destruct (scout_history_default e) as [r |] eqn:Hdef.
      * assert (Hret : returns (batch_log_scout [])
                  {| durable := d;
                     session := mk_Session tx [] im false;
                     ratios_manager := rm; coin_stubs := cs; client := cl;
                     trace := tr; clock_reads := cr; io_count := io;
                     connect_attempts := ca; env := e |}
                  (fun _ w1 =>
                     scout_history (durable w1)
                     = scout_history (match tx with Some v => v | None => d end)
                       ++ [with_sh_id
                             (next_rowid
                                (map sh_id
                                   (scout_history
                                      (match tx with
                                       | Some v => v
                                       | None => d
                                       end)))) r])).
        { unfold batch_log_scout. py. rewrite Hdef. py. reflexivity. }
        destruct Hret as ([] & w1 & Hrun1 & Hrows).
        assert (w1 = w') by congruence. subst w1.
        eexists _, (sh_datetime r). split; [exact Hrows |].
        now constructor.
      * exfalso. revert Hrun. unfold batch_log_scout, db_session,
          contextmanager, session_factory, datetime_now, session_flush,
          db_roundtrip, raise.
        cbv [bind ret gets]. cbn. rewrite Hdef. cbn. rewrite Hf. cbn.
        discriminate.
    + destruct (Hfull l ls) as (w1 & new & Hrun1 & Hrows & Hall & _).
      assert (w1 = w') by congruence. subst w1.
      exists new, (Some (wall_clock (env w) (clock_reads w))).
      split; [exact Hrows |].
      clear -Hall. induction Hall as [| x r xs new [id ->] _ IH];
        constructor; [reflexivity | exact IH].
Qed.

(* ===================================================================== *)
(** * Further operations of [database.py] *)
(* ===================================================================== *)

(** [session.expunge_all()]. *)
Definition session_expunge_all : M unit :=
  modify (fun w => with_session (set_identity_map [] (session w)) w).

(** [Database.get_coins]. *)
Definition get_coins (only_enabled : bool) : M (list Coin) :=
  db_session
    (coins <- (if only_enabled
               then session_query (fun v => filter coin_enabled (coins v))
               else session_query coins) ;;
     session_attach (map (fun c => CoinKey (coin_symbol c)) coins) ;;
     session_expunge_all ;;
     ret coins).

(** [Database.get_pair]; [session.expunge(None)] raises when no row
    matches. *)
Definition get_pair (from_coin to_coin : CoinArg) : M Pair :=
  from_coin <- get_coin from_coin ;;
  to_coin <- get_coin to_coin ;;
  db_session
    (pair <- session_query (fun v =>
               find (pair_matches from_coin to_coin) (pairs v)) ;;
     match pair with
     | None => raise UnmappedInstanceError
     | Some p =>
         session_attach (map PairKey (opt_ids pair_id [p])) ;;
         for_each (map PairKey (opt_ids pair_id [p])) session_expunge ;;
         ret p
     end).

(** One hour earlier. *)
Definition prev_hour (d : datetime) : datetime :=
  if 0 <? hour d then
    mk_datetime (year d) (month d) (day d) (hour d - 1)
                (minute d) (second d) (microsecond d)
  else
    let p := prev_day d in
    mk_datetime (year p) (month p) (day p) 23
                (minute d) (second d) (microsecond d).

(** [ScoutHistory.datetime < time_diff]; a [NULL] timestamp compares to
    nothing. *)
Definition scout_expired (time_diff : datetime) (r : ScoutHistory) : bool :=
  match sh_datetime r with
  | Some d => dt_ltb d time_diff
  | None => false
  end.

(** [Database.prune_scout_history], for a configuration whose
    [SCOUT_HISTORY_PRUNE_TIME] is the whole number of hours [prune_time]
    ([config.py] is not part of the sources at hand). *)
Definition prune_scout_history (prune_time : nat) : M unit :=
  now <- datetime_now ;;
  let time_diff := Nat.iter prune_time prev_hour now in
  db_session
    (session_execute
       (with_scout_history
          (filter (fun r => negb (scout_expired time_diff r))))).

(** A [CoinValue] object as the caller builds it: the asset is reached
    through the [coin] relationship, which may be unset. *)
Record CoinValueObj := mk_CoinValueObj {
  cvo_coin : option Coin;
  cvo_balance : float;
  cvo_usd_price : float;
  cvo_btc_price : float;
  cvo_interval : Interval;
  cvo_datetime : datetime
}.

(** The parameter set built for one value: [cv.coin.symbol] raises when
    [cv.coin] is [None]. *)
Definition coin_value_params (cv : CoinValueObj)
    : option (Z -> CoinValue) :=
  match cvo_coin cv with
  | Some c =>
      Some (fun id =>
              mk_CoinValue id (coin_symbol c) (cvo_balance cv)
                           (cvo_usd_price cv) (cvo_btc_price cv)
                           (cvo_interval cv) (cvo_datetime cv))
  | None => None
  end.

(** The list comprehension, left to right; [None] when an element raises. *)
Fixpoint coin_value_batch (cv_batch : list CoinValueObj)
    : option (list (Z -> CoinValue)) :=
  match cv_batch with
  | [] => Some []
  | cv :: rest =>
      match coin_value_params cv with
      | None => None
      | Some p =>
          match coin_value_batch rest with
          | None => None
          | Some ps => Some (p :: ps)
          end
      end
  end.

(** [INSERT INTO coin_value ...] once per parameter set. *)
Definition insert_coin_values (rows : list (Z -> CoinValue))
    (tbl : list CoinValue) : list CoinValue :=
  fold_left (fun t mk => t ++ [mk (next_rowid (map cv_id t))]) rows tbl.

(** [Database.batch_update_coin_values].  An empty batch runs the statement
    once with no values bound; [default_row] is the row the column defaults
    of the absent [models/coin_value.py] then give, [None] when a
    constraint refuses it. *)
Definition batch_update_coin_values (default_row : option CoinValue)
    (cv_batch : list CoinValueObj) : M unit :=
  db_session
    (match coin_value_batch cv_batch with
     | None => raise AttributeError
     | Some [] =>
         match default_row with
         | Some r =>
             session_execute
               (with_coin_values
                  (insert_coin_values
                     [fun id => mk_CoinValue id (cv_coin_id r) (cv_balance r)
                                             (cv_usd_price r) (cv_btc_price r)
                                             (cv_interval r) (cv_datetime r)]))
         | None => session_flush ;; db_roundtrip ;; raise IntegrityError
         end
     | Some rows => session_execute (with_coin_values (insert_coin_values rows))
     end).

(** [try: m except: handler] with a bare [except]. *)
Definition try_except_all {A} (m : M A) (handler : M A) : M A :=
  fun w =>
    match m w with
    | (Raise _, w') => handler w'
    | r => r
    end.

(** [Base.metadata.create_all(self.engine)]: one round trip on the engine,
    outside any session. *)
Definition create_all : M unit :=
  fun w =>
    if fault_at (env w) (io_count w)
    then (Raise OperationalError, tick_io w)
    else (Ok tt, tick_io w).

(** [Database.create_database].  The [ALTER TABLE] adds a column and changes
    no row; it fails when the store refuses it. *)
Definition create_database : M unit :=
  create_all ;;
  try_except_all (db_session (session_execute (fun v => v))) (ret tt).

(* ===================================================================== *)
(** ** Accessors *)
(* ===================================================================== *)

(** What an exception does to a [bind]: the run stops where it was
    raised. *)
Lemma raises_bind_first {A B} (m : M A) (k : A -> M B) w e w' :
  m w = (Raise e, w') -> bind m k w = (Raise e, w').
Proof. exact (bind_raise m k w e w'). Qed.

(** [get_coin] with a symbol the store does not know raises, at
    [session.expunge(None)]: it does not return [None].  Nothing was
    written, and since the exception leaves [db_session] before its commit
    and close, the transaction the lookup began stays open. *)
Theorem get_coin_unknown_symbol_raises (s : string) (w : World) :
  session_idle w -> no_faults w ->
  find_coin s (durable w) = None ->
  exists w',
    get_coin (CoinSymbol s) w = (Raise UnmappedInstanceError, w') /\
    durable w' = durable w /\
    txn (session w') = Some (durable w) /\
    trace w' = trace w.
Proof.
  intros Hs Hf Hfind.
  destruct w as [d ss rm cs cl tr cr io ca e].
  unfold session_idle, no_faults in *. cbn in Hs, Hf, Hfind. subst ss.
  eexists. split.
  - unfold get_coin, db_session, contextmanager, session_factory.
    unfold bind at 1. cbn [ret].
    apply raises_bind_first.
    erewrite bind_ok; [| apply session_query_ok; py_side].
    wnorm. rewrite Hfind. reflexivity.
  - repeat split; reflexivity.
Qed.

Lemma get_coin_unknown_symbol_raises_witness :
  exists w',
    get_coin (CoinSymbol "XRP")
             (Sample.world Sample.env_offline Sample.btc_eth)
    = (Raise UnmappedInstanceError, w') /\
    durable w' = Sample.btc_eth.
Proof.
  destruct (get_coin_unknown_symbol_raises
              "XRP" (Sample.world Sample.env_offline Sample.btc_eth))
    as (w' & Hrun & Hd & _).
  - reflexivity.
  - intros n. reflexivity.
  - reflexivity.
  - exists w'. split; [exact Hrun | exact Hd].
Defined.

(** [get_coin] with a known symbol returns the stored row of that symbol;
    a [Coin] object is handed back as it is, without a look at the store.
    Either way the store is unchanged and the session is left closed, so
    the coin returned is attached to nothing. *)
Theorem get_coin_returns_detached_row (coin : CoinArg) (w : World) :
  session_idle w -> no_faults w ->
  coin_arg_known coin (durable w) ->
  exists c w',
    get_coin coin w = (Ok c, w') /\
    coin_symbol c = coin_arg_symbol coin /\
    match coin with
    | CoinObj c0 => c = c0 /\ w' = w
    | CoinSymbol s => find_coin s (durable w) = Some c
    end /\
    durable w' = durable w /\
    session_idle w'.
Proof.
  intros Hs Hf Hk.
  destruct coin as [c0 | s].
  - exists c0, w. repeat split; auto.
  - cbn in Hk. destruct (find_coin s (durable w)) as [c |] eqn:Hfind;
      [| now elim Hk].
    pose proof (find_coin_symbol _ _ _ Hfind) as Hsym.
    destruct w as [d ss rm cs cl tr cr io ca e].
    unfold session_idle, no_faults in *. cbn in Hs, Hf, Hfind. subst ss.
    enough (H : returns (get_coin (CoinSymbol s))
                  {| durable := d; session := fresh_session;
                     ratios_manager := rm; coin_stubs := cs; client := cl;
                     trace := tr; clock_reads := cr; io_count := io;
                     connect_attempts := ca; env := e |}
                  (fun c' w' =>
                     c' = c /\ durable w' = d /\ session w' = fresh_session)).
    { destruct H as (c' & w' & Hrun & -> & Hd & Hi).
      exists c, w'. repeat split; auto. }
    unfold get_coin. py. rewrite Hfind. py.
    apply returns_session_expunge.
    { cbn. now rewrite String.eqb_refl. }
    py. repeat split; reflexivity.
Qed.

Lemma get_coin_returns_detached_row_witness :
  exists c w',
    get_coin (CoinSymbol "ETH")
             (Sample.world Sample.env_offline Sample.btc_eth) = (Ok c, w') /\
    coin_symbol c = "ETH" /\ session_idle w'.
Proof.
  destruct (get_coin_returns_detached_row
              (CoinSymbol "ETH")
              (Sample.world Sample.env_offline Sample.btc_eth))
    as (c & w' & Hrun & Hsym & _ & _ & Hidle).
  - reflexivity.
  - intros n. reflexivity.
  - discriminate.
  - exists c, w'. repeat split; assumption.
Defined.

(** [get_coins] returns the enabled assets, or all of them, in table
    order; it changes nothing in the store and leaves the session closed
    with no object attached. *)
Theorem get_coins_returns_table (only_enabled : bool) (w : World) :
  session_idle w -> no_faults w ->
  exists w',
    get_coins only_enabled w
    = (Ok (if only_enabled then filter coin_enabled (coins (durable w))
           else coins (durable w)), w') /\
    durable w' = durable w /\
    session_idle w'.
Proof.
  intros Hs Hf.
  destruct w as [d ss rm cs cl tr cr io ca e].
  unfold session_idle, no_faults in *. cbn in Hs, Hf. subst ss.
  enough (H : returns (get_coins only_enabled)
                {| durable := d; session := fresh_session;
                   ratios_manager := rm; coin_stubs := cs; client := cl;
                   trace := tr; clock_reads := cr; io_count := io;
                   connect_attempts := ca; env := e |}
                (fun l w' =>
                   l = (if only_enabled then filter coin_enabled (coins d)
                        else coins d) /\
                   durable w' = d /\ session w' = fresh_session)).
  { destruct H as (l & w' & Hrun & -> & Hd & Hi). now exists w'. }
  unfold get_coins, session_expunge_all.
  destruct only_enabled; py; repeat split; reflexivity.
Qed.

Lemma get_coins_returns_table_witness :
  exists w',
    get_coins true
      (Sample.world Sample.env_offline
         (with_coins (fun l => l ++ [mk_Coin "ADA" false]) Sample.btc_eth))
    = (Ok [mk_Coin "BTC" true; mk_Coin "ETH" true], w') /\
    session_idle w'.
Proof.
  destruct (get_coins_returns_table true
              (Sample.world Sample.env_offline
                 (with_coins (fun l => l ++ [mk_Coin "ADA" false])
                             Sample.btc_eth)))
    as (w' & Hrun & _ & Hidle).
  - reflexivity.
  - intros n. reflexivity.
  - exists w'. split; [exact Hrun | exact Hidle].
Defined.

(* ===================================================================== *)
(** ** The relay across several calls *)
(* ===================================================================== *)

(** The client is ready. *)
Definition client_ready (c : Client) : Prop :=
  connected c = true /\ In "/backend" (namespaces c).

(** A gateway that never accepts a connection without finishing the
    namespace negotiation: each attempt is refused, or is accepted and
    ready after finitely many polls. *)
Definition gateway_settles (e : Env) : Prop :=
  forall n, connect_outcome e n <> Accepted None.

(** The relay answers now and will keep answering: the client is ready, or
    it is disconnected in front of a gateway that settles. *)
Definition relay_sound (w : World) : Prop :=
  client_ready (client w) \/
  (connected (client w) = false /\ gateway_settles (env w)).

Lemma relay_sound_answers w : relay_sound w -> relay_answers w.
Proof.
  intros [H | [Hc Hg]]; [now left |].
  right. specialize (Hg (connect_attempts w)).
  destruct (connect_outcome (env w) (connect_attempts w)) as [| [k |]] eqn:Ho.
  - left. now split.
  - right. split; [exact Hc | now exists k].
  - now elim Hg.
Qed.

(** [send_update] keeps the relay sound. *)
Lemma send_update_sound m w :
  relay_sound w ->
  exists n sl c a,
    is_notify n = true /\ Forall (eq EvSleep) sl /\
    send_update m w = (Ok tt, relayed c a (sl ++ [n]) w) /\
    (client_ready c \/ (connected c = false /\ gateway_settles (env w))).
Proof.
  intros [H | [Hc Hg]].
  - exists (EvEmit m), [], (client w), (connect_attempts w).
    rewrite (send_update_ready m w H).
    split; [reflexivity |]. split; [constructor |].
    split; [reflexivity | now left].
  - pose proof (Hg (connect_attempts w)) as Hn.
    destruct (connect_outcome (env w) (connect_attempts w)) as [| [k |]] eqn:Ho.
    + exists heartbeat_warning, [], (client w), (S (connect_attempts w)).
      rewrite (send_update_down m w (conj Hc Ho)).
      split; [reflexivity |]. split; [constructor |].
      split; [reflexivity | right; now split].
    + exists (EvEmit m),
        (match k with O => [] | _ => repeat EvSleep k end),
        (mk_Client true ["/backend"] (Some O)), (S (connect_attempts w)).
      split; [reflexivity |]. split.
      { destruct k; [constructor |]. apply Forall_forall.
        intros x Hx. symmetry. exact (repeat_spec _ _ _ Hx). }
      split; [| left; split; [reflexivity | now left]].
      destruct w as [d ss rm cs cl tr cr io ca e]. cbn in Hc, Ho.
      unfold send_update, _api_session, client_connect, poll_until_ready,
        client_emit.
      unfold bind, gets, ret, try_except, modify. cbn. rewrite Hc. cbn.
      rewrite Hc. cbn. rewrite Ho.
      destruct k as [| k].
      * reflexivity.
      * cbn. rewrite sleep_n_run. cbn. unfold relayed. cbn.
        rewrite String.eqb_refl. cbn. unfold log_event, with_client. cbn.
        rewrite <- !app_assoc. reflexivity.
    + now elim Hn.
Qed.

Lemma returns_send_update_sound m w (Q : unit -> World -> Prop) :
  relay_sound w ->
  (forall n sl c a,
     is_notify n = true -> Forall (eq EvSleep) sl ->
     (client_ready c \/ (connected c = false /\ gateway_settles (env w))) ->
     Q tt (relayed c a (sl ++ [n]) w)) ->
  returns (send_update m) w Q.
Proof.
  intros Hr HQ.
  destruct (send_update_sound m w Hr)
    as (n & sl & c & a & Hn & Hsl & Heq & Hc).
  eapply returns_eq; [exact Heq |]. now apply HQ.
Qed.

Lemma poll_until_ready_client w w' :
  poll_until_ready w = (Ok tt, w') ->
  connected (client w') = true /\ is_nil (namespaces (client w')) = false.
Proof.
  unfold poll_until_ready. cbv [bind gets].
  destruct (connected (client w) && negb (is_nil (namespaces (client w))))
    eqn:Hready.
  - cbv [ret]. intros [= <-]. apply andb_prop in Hready.
    destruct Hready as [Hc Hn]. split; [exact Hc |].
    now apply negb_true_iff.
  - destruct (negb (connected (client w))); [discriminate |].
    destruct (ns_ready_in (client w)) as [k |]; [| discriminate].
    rewrite sleep_n_run. cbv [modify]. intros [= <-]. now split.
Qed.

(** Once [_api_session] has returned [True] the client is connected with
    its namespace negotiated, and calling [_api_session] again returns
    [True] at once: no second connection attempt, no poll, the world is
    left exactly as it was. *)
Theorem _api_session_stays_connected (w w' : World) :
  _api_session w = (Ok true, w') ->
  connected (client w') = true /\
  namespaces (client w') <> [] /\
  _api_session w' = (Ok true, w').
Proof.
  intros Hrun.
  assert (Hready : connected (client w') = true /\
                   is_nil (namespaces (client w')) = false).
  { revert Hrun. unfold _api_session. cbv [bind gets].
    destruct (connected (client w) && negb (is_nil (namespaces (client w))))
      eqn:H0.
    - cbv [ret]. intros [= <-]. apply andb_prop in H0.
      destruct H0 as [Hc Hn]. split; [exact Hc | now apply negb_true_iff].
    - unfold try_except.
      destruct ((if negb (connected (client w)) then client_connect
                 else ret tt) w) as [[[] | e |] w1] eqn:Hconn.
      + destruct (poll_until_ready w1) as [[[] | e |] w2] eqn:Hpoll.
        * cbv [ret]. intros [= <-]. exact (poll_until_ready_client _ _ Hpoll).
        * destruct (Exn_eqb e SocketIOConnectionError); discriminate.
        * discriminate.
      + destruct (Exn_eqb e SocketIOConnectionError); discriminate.
      + discriminate. }
  destruct Hready as [Hc Hn]. split; [exact Hc |].
  split; [intros Hnil; now rewrite Hnil in Hn |].
  unfold _api_session. cbv [bind gets]. now rewrite Hc, Hn.
Qed.

Lemma _api_session_stays_connected_witness :
  let w := Sample.world Sample.env_online Sample.btc_eth in
  fst (_api_session w) = Ok true /\
  _api_session (snd (_api_session w)) = (Ok true, snd (_api_session w)).
Proof.
  cbv zeta. split; [reflexivity |].
  apply (_api_session_stays_connected
           (Sample.world Sample.env_online Sample.btc_eth)).
  reflexivity.
Defined.

(* ===================================================================== *)
(** ** The trade lifecycle, end to end *)
(* ===================================================================== *)

Lemma fold_max_bound i ids : In i ids -> i <= fold_right Z.max 0 ids.
Proof.
  induction ids as [| j ids IH]; [intros [] |].
  cbn [fold_right]. intros [<- | Hin]; [lia |].
  specialize (IH Hin). lia.
Qed.

(** The next rowid is no key of the table. *)
Lemma next_rowid_fresh ids : ~ In (next_rowid ids) ids.
Proof.
  intros Hin. apply fold_max_bound in Hin. unfold next_rowid in Hin. lia.
Qed.

Lemma opt_ids_In {A} (id : A -> option Z) rows r i :
  In r rows -> id r = Some i -> In i (opt_ids id rows).
Proof.
  intros Hr Hi. unfold opt_ids. apply in_flat_map. exists r.
  split; [exact Hr |]. rewrite Hi. now left.
Qed.

(** The row written by a transition: [t] where the key is [i]. *)
Definition replace_trade (i : Z) (t : Trade) (r : Trade) : Trade :=
  match trade_id r with
  | Some j => if j =? i then t else r
  | None => r
  end.

Lemma replace_trade_other i t rows :
  ~ In i (opt_ids trade_id rows) -> map (replace_trade i t) rows = rows.
Proof.
  intros Hfresh. rewrite <- (map_id rows) at 2. apply map_ext_in.
  intros r Hr. unfold replace_trade.
  destruct (trade_id r) as [j |] eqn:Hj; [| reflexivity].
  destruct (j =? i) eqn:Hji; [| reflexivity].
  apply Z.eqb_eq in Hji. subst j. elim Hfresh.
  exact (opt_ids_In trade_id rows r i Hr Hj).
Qed.

Lemma find_trade_fresh i rows t :
  ~ In i (opt_ids trade_id rows) -> trade_id t = Some i ->
  find_trade i (with_trades (fun _ => rows ++ [t]) empty_store) = Some t.
Proof.
  intros Hfresh Ht. unfold find_trade. cbn [trades with_trades].
  induction rows as [| r rows IH]; cbn [app find].
  - now rewrite Ht, Z.eqb_refl.
  - destruct (trade_id r) as [j |] eqn:Hj.
    + destruct (j =? i) eqn:Hji.
      * apply Z.eqb_eq in Hji. subst j. elim Hfresh.
        apply (opt_ids_In trade_id (r :: rows) r i); [now left | exact Hj].
      * apply IH. intros Hin. apply Hfresh. unfold opt_ids. cbn [flat_map].
        rewrite Hj. now right.
    + apply IH. intros Hin. apply Hfresh. unfold opt_ids. cbn [flat_map].
      now rewrite Hj.
Qed.

(** The trade [Trade(from_coin, to_coin, selling)] as stored with key
    [i] at time [dt]. *)
Definition initial_Trade (i : Z) (from_coin to_coin : string) (selling : bool)
    (dt : datetime) : Trade :=
  mk_Trade (Some i) (Some from_coin) (Some to_coin) (Some selling)
           (Some INITIAL) None None None None (Some dt).

Lemma start_trade_log_run from_coin to_coin selling w :
  session_idle w -> no_faults w -> relay_sound w ->
  exists self w',
    start_trade_log from_coin to_coin selling w = (Ok self, w') /\
    tl_trade self
    = initial_Trade (next_rowid (opt_ids trade_id (trades (durable w))))
                    from_coin to_coin selling
                    (wall_clock (env w) (clock_reads w)) /\
    durable w'
    = with_trades (fun l => l ++ [tl_trade self]) (durable w) /\
    session_idle w' /\ env w' = env w /\ relay_sound w'.
Proof.
  intros Hs Hf Hr.
  destruct w as [d ss rm cs cl tr cr io ca e].
  unfold session_idle, no_faults in *. cbn in Hs, Hf. subst ss.
  enough (H : returns (start_trade_log from_coin to_coin selling)
                {| durable := d; session := fresh_session;
                   ratios_manager := rm; coin_stubs := cs; client := cl;
                   trace := tr; clock_reads := cr; io_count := io;
                   connect_attempts := ca; env := e |}
                (fun self w' =>
                   tl_trade self
                   = initial_Trade (next_rowid (opt_ids trade_id (trades d)))
                                   from_coin to_coin selling (wall_clock e cr) /\
                   durable w'
                   = with_trades (fun l => l ++ [tl_trade self]) d /\
                   session w' = fresh_session /\ env w' = e /\
                   relay_sound w')).
  { destruct H as (self & w' & H1 & H2). now exists self, w'. }
  unfold start_trade_log, new_Trade. py.
  eapply returns_session_flush_insert; try py_side. wnorm. py.
  apply returns_send_update_sound; [exact Hr |].
  intros n sl c a _ _ Hc. wnorm. py.
  cbn [trades with_trades]. rewrite last_last.
  repeat split; try reflexivity. exact Hc.
Qed.

(** One transition on a stored trade: only the row of the tracked key is
    rewritten. *)
Lemma set_ordered_run self i t x y z w :
  session_idle w -> no_faults w -> relay_sound w ->
  trade_id (tl_trade self) = Some i ->
  find_trade i (durable w) = Some t ->
  exists w',
    set_ordered self x y z w = (Ok tt, w') /\
    durable w'
    = with_trades
        (map (replace_trade i
                (mk_Trade (trade_id t) (trade_alt_coin_id t)
                          (trade_crypto_coin_id t) (trade_selling t)
                          (Some ORDERED) (Some x) (Some z) (Some y)
                          (trade_crypto_trade_amount t) (trade_datetime t))))
        (durable w) /\
    session_idle w' /\ env w' = env w /\ relay_sound w'.
Proof.
  intros Hs Hf Hr Hid Hfind.
  pose proof (find_trade_id _ _ _ Hfind) as Ht.
  destruct w as [d ss rm cs cl tr cr io ca e].
  unfold session_idle, no_faults in *. cbn in Hs, Hf, Hfind. subst ss.
  apply returns_unit. unfold set_ordered, session_merge_trade.
  rewrite Hid. py. rewrite Hfind. py.
  unfold session_save_trade. cbn [trade_id]. rewrite Ht. py.
  apply returns_send_update_sound; [exact Hr |].
  intros n sl c a _ _ Hc. wnorm. py.
  repeat split; try reflexivity. exact Hc.
Qed.

Lemma set_complete_run self i t x w :
  session_idle w -> no_faults w -> relay_sound w ->
  trade_id (tl_trade self) = Some i ->
  find_trade i (durable w) = Some t ->
  exists w',
    set_complete self x w = (Ok tt, w') /\
    durable w'
    = with_trades
        (map (replace_trade i
                (mk_Trade (trade_id t) (trade_alt_coin_id t)
                          (trade_crypto_coin_id t) (trade_selling t)
                          (Some COMPLETE) (trade_alt_starting_balance t)
                          (trade_alt_trade_amount t)
                          (trade_crypto_starting_balance t) (Some x)
                          (trade_datetime t))))
        (durable w) /\
    session_idle w' /\ env w' = env w /\ relay_sound w'.
Proof.
  intros Hs Hf Hr Hid Hfind.
  pose proof (find_trade_id _ _ _ Hfind) as Ht.
  destruct w as [d ss rm cs cl tr cr io ca e].
  unfold session_idle, no_faults in *. cbn in Hs, Hf, Hfind. subst ss.
  apply returns_unit. unfold set_complete, session_merge_trade.
  rewrite Hid. py. rewrite Hfind. py.
  unfold session_save_trade. cbn [trade_id]. rewrite Ht. py.
  apply returns_send_update_sound; [exact Hr |].
  intros n sl c a _ _ Hc. wnorm. py.
  repeat split; try reflexivity. exact Hc.
Qed.

Lemma find_trade_replace_other i j t' v :
  j <> i -> trade_id t' = Some i ->
  find_trade j (with_trades (map (replace_trade i t')) v) = find_trade j v.
Proof.
  intros Hji Hid. unfold find_trade, with_trades. cbn [trades].
  induction (trades v) as [| r l IH]; [reflexivity |].
  cbn [map find]. rewrite IH.
  assert (Hr : replace_trade i t' r = r \/
               (replace_trade i t' r = t' /\ trade_id r = Some i)).
  { unfold replace_trade. destruct (trade_id r) as [k |] eqn:Hk; [| now left].
    destruct (k =? i) eqn:Hki; [| now left].
    apply Z.eqb_eq in Hki. subst k. now right. }
  destruct Hr as [-> | [-> Hri]]; [reflexivity |].
  rewrite Hid, Hri.
  destruct (i =? j) eqn:Hij; [apply Z.eqb_eq in Hij; now elim Hji |].
  reflexivity.
Qed.

(** [start_trade_log] stores exactly one new trade, in state [INITIAL] with
    no balance known, under a key no stored trade has; the trades already
    stored and every other table are untouched, and the tracker returned
    holds the new row. *)
Theorem start_trade_log_creates_initial_trade
    (from_coin to_coin : string) (selling : bool) (w : World) :
  session_idle w -> no_faults w -> relay_sound w ->
  exists self w',
    start_trade_log from_coin to_coin selling w = (Ok self, w') /\
    tl_trade self
    = initial_Trade (next_rowid (opt_ids trade_id (trades (durable w))))
                    from_coin to_coin selling
                    (wall_clock (env w) (clock_reads w)) /\
    ~ In (next_rowid (opt_ids trade_id (trades (durable w))))
         (opt_ids trade_id (trades (durable w))) /\
    durable w' = with_trades (fun l => l ++ [tl_trade self]) (durable w) /\
    session_idle w'.
Proof.
  intros Hs Hf Hr.
  destruct (start_trade_log_run from_coin to_coin selling w Hs Hf Hr)
    as (self & w' & Hrun & Hself & Hd & Hi & _).
  exists self, w'. repeat split; auto. apply next_rowid_fresh.
Qed.

Lemma start_trade_log_creates_initial_trade_witness :
  exists self w',
    start_trade_log "ETH" "BTC" false
                    (Sample.world Sample.env_offline Sample.traded)
    = (Ok self, w') /\
    map trade_id (trades (durable w')) = [Some 7; Some 8] /\
    trade_state (tl_trade self) = Some INITIAL.
Proof.
  destruct (start_trade_log_creates_initial_trade
              "ETH" "BTC" false
              (Sample.world Sample.env_offline Sample.traded))
    as (self & w' & Hrun & Hself & _ & Hd & _).
  - reflexivity.
  - intros n. reflexivity.
  - right. split; [reflexivity |]. intros n. discriminate.
  - exists self, w'. split; [exact Hrun |].
    rewrite Hd, Hself. split; reflexivity.
Defined.

(** Creation, the order-transition and the complete-transition in a row
    add one trade to the table and leave it [COMPLETE] with the assets and
    the [selling] flag given at creation and the four amounts given by the
    transitions. *)
Theorem trade_lifecycle_composes
    (from_coin to_coin : string) (selling : bool)
    (alt_starting_balance crypto_starting_balance alt_trade_amount
     crypto_trade_amount : float) (w : World) :
  session_idle w -> no_faults w -> relay_sound w ->
  exists self w1 w2 w3,
    start_trade_log from_coin to_coin selling w = (Ok self, w1) /\
    set_ordered self alt_starting_balance crypto_starting_balance
                alt_trade_amount w1 = (Ok tt, w2) /\
    set_complete self crypto_trade_amount w2 = (Ok tt, w3) /\
    durable w3
    = with_trades (fun l => l ++
        [mk_Trade (Some (next_rowid (opt_ids trade_id (trades (durable w)))))
                  (Some from_coin) (Some to_coin) (Some selling)
                  (Some COMPLETE) (Some alt_starting_balance)
                  (Some alt_trade_amount) (Some crypto_starting_balance)
                  (Some crypto_trade_amount)
                  (Some (wall_clock (env w) (clock_reads w)))])
        (durable w).
Proof.
  intros Hs Hf Hr.
  pose proof (next_rowid_fresh (opt_ids trade_id (trades (durable w))))
    as Hfresh.
  set (i := next_rowid (opt_ids trade_id (trades (durable w)))) in *.
  destruct (start_trade_log_run from_coin to_coin selling w Hs Hf Hr)
    as (self & w1 & Hrun1 & Hself & Hd1 & Hi1 & He1 & Hr1).
  fold i in Hself.
  assert (Hf1 : no_faults w1) by (unfold no_faults; now rewrite He1).
  assert (Hfind1 : find_trade i (durable w1) = Some (tl_trade self)).
  { rewrite Hd1. unfold find_trade. cbn [trades with_trades].
    apply (find_trade_fresh i (trades (durable w)) (tl_trade self) Hfresh).
    now rewrite Hself. }
  assert (Hid : trade_id (tl_trade self) = Some i) by now rewrite Hself.
  destruct (set_ordered_run self i (tl_trade self) alt_starting_balance
              crypto_starting_balance alt_trade_amount w1
              Hi1 Hf1 Hr1 Hid Hfind1)
    as (w2 & Hrun2 & Hd2 & Hi2 & He2 & Hr2).
  assert (Hf2 : no_faults w2) by (unfold no_faults; now rewrite He2).
  rewrite Hself in Hd2. cbn [initial_Trade trade_id trade_alt_coin_id
    trade_crypto_coin_id trade_selling trade_crypto_trade_amount
    trade_datetime] in Hd2.
  rewrite Hd1 in Hd2. unfold with_trades in Hd2. cbn [trades] in Hd2.
  rewrite map_app, (replace_trade_other i _ _ Hfresh) in Hd2.
  cbn [map] in Hd2. unfold replace_trade at 1 in Hd2.
  rewrite Hid, Z.eqb_refl in Hd2.
  match type of Hd2 with
  | _ = mk_Store _ _ _ _ _ (_ ++ [?t2]) =>
      assert (Hfind2 : find_trade i (durable w2) = Some t2)
  end.
  { rewrite Hd2. unfold find_trade. cbn [trades].
    apply (find_trade_fresh i (trades (durable w)) _ Hfresh). reflexivity. }
  match type of Hfind2 with
  | _ = Some ?t2 =>
      destruct (set_complete_run self i t2 crypto_trade_amount w2
                  Hi2 Hf2 Hr2 Hid Hfind2)
        as (w3 & Hrun3 & Hd3 & _)
  end.
  exists self, w1, w2, w3.
  split; [exact Hrun1 |]. split; [exact Hrun2 |]. split; [exact Hrun3 |].
  rewrite Hd3, Hd2. unfold with_trades. cbn [trades coins pairs current_coins
    coin_values scout_history trade_id trade_alt_coin_id trade_crypto_coin_id
    trade_selling trade_alt_starting_balance trade_alt_trade_amount
    trade_crypto_starting_balance trade_datetime].
  rewrite map_app, (replace_trade_other i _ _ Hfresh).
  cbn [map]. unfold replace_trade. cbn [trade_id]. rewrite Z.eqb_refl.
  reflexivity.
Qed.

Lemma trade_lifecycle_composes_witness :
  exists self w1 w2 w3,
    start_trade_log "ETH" "BTC" false
                    (Sample.world Sample.env_offline Sample.traded)
    = (Ok self, w1) /\
    set_ordered self 1%float 2%float 3%float w1 = (Ok tt, w2) /\
    set_complete self 4%float w2 = (Ok tt, w3) /\
    map trade_state (trades (durable w3)) = [Some INITIAL; Some COMPLETE].
Proof.
  destruct (trade_lifecycle_composes
              "ETH" "BTC" false 1%float 2%float 3%float 4%float
              (Sample.world Sample.env_offline Sample.traded))
    as (self & w1 & w2 & w3 & H1 & H2 & H3 & Hd).
  - reflexivity.
  - intros n. reflexivity.
  - right. split; [reflexivity |]. intros n. discriminate.
  - exists self, w1, w2, w3. repeat split; try assumption.
    rewrite Hd. reflexivity.
Defined.

(** A transition rewrites the row of the tracked trade and nothing else:
    every other table is as before, the trades table keeps its rows in
    place, and a trade with another key is found unchanged. *)
Theorem transitions_touch_only_tracked_trade (self : TradeLog) (i : Z)
    (t : Trade) (x y z : float) (w : World) :
  session_idle w -> no_faults w -> relay_sound w ->
  trade_id (tl_trade self) = Some i ->
  find_trade i (durable w) = Some t ->
  (exists w' t',
     set_ordered self x y z w = (Ok tt, w') /\
     durable w' = with_trades (map (replace_trade i t')) (durable w) /\
     forall j, j <> i -> find_trade j (durable w') = find_trade j (durable w)) /\
  (exists w' t',
     set_complete self x w = (Ok tt, w') /\
     durable w' = with_trades (map (replace_trade i t')) (durable w) /\
     forall j, j <> i -> find_trade j (durable w') = find_trade j (durable w)).
Proof.
  intros Hs Hf Hr Hid Hfind.
  pose proof (find_trade_id _ _ _ Hfind) as Ht.
  split.
  - destruct (set_ordered_run self i t x y z w Hs Hf Hr Hid Hfind)
      as (w' & Hrun & Hd & _).
    eexists w', _. split; [exact Hrun |]. split; [exact Hd |].
    intros j Hj. rewrite Hd. now apply find_trade_replace_other.
  - destruct (set_complete_run self i t x w Hs Hf Hr Hid Hfind)
      as (w' & Hrun & Hd & _).
    eexists w', _. split; [exact Hrun |]. split; [exact Hd |].
    intros j Hj. rewrite Hd. now apply find_trade_replace_other.
Qed.

Lemma transitions_touch_only_tracked_trade_witness :
  let other := mk_Trade (Some 3) (Some "ETH") (Some "BTC") (Some false)
                        (Some ORDERED) None None None None None in
  let w := Sample.world Sample.env_offline
             (with_trades (fun l => other :: l) Sample.traded) in
  exists w',
    set_complete Sample.tracker 4%float w = (Ok tt, w') /\
    find_trade 3 (durable w') = Some other.
Proof.
  cbv zeta.
  destruct (transitions_touch_only_tracked_trade
              Sample.tracker 7 Sample.initial_trade 4%float 0%float 0%float
              (Sample.world Sample.env_offline
                 (with_trades (fun l =>
                    mk_Trade (Some 3) (Some "ETH") (Some "BTC") (Some false)
                             (Some ORDERED) None None None None None :: l)
                    Sample.traded)))
    as [_ (w' & t' & Hrun & _ & Hother)].
  - reflexivity.
  - intros n. reflexivity.
  - right. split; [reflexivity |]. intros n. discriminate.
  - reflexivity.
  - reflexivity.
  - exists w'. split; [exact Hrun |]. rewrite Hother; [reflexivity | lia].
Defined.

(* ===================================================================== *)
(** ** Schema migration and scout pruning *)
(* ===================================================================== *)

(** Once [create_all] has gone through, [create_database] returns normally
    whatever becomes of the [ALTER TABLE] and of its commit: the bare
    [except] swallows the failure; no stored row changes either way. *)
Theorem create_database_swallows_migration_failure (w : World) :
  session_idle w ->
  fault_at (env w) (io_count w) = false ->
  exists w',
    create_database w = (Ok tt, w') /\ durable w' = durable w.
Proof.
  intros Hs Hf.
  destruct w as [d ss rm cs cl tr cr io ca e].
  unfold session_idle in Hs. cbn in Hs, Hf. subst ss.
  destruct (fault_at e (S io)) eqn:H1;
    destruct (fault_at e (S (S io))) eqn:H2;
    unfold create_database, create_all, try_except_all, db_session,
      contextmanager, session_factory, session_execute, session_commit,
      session_close, session_flush, db_roundtrip;
    cbv [bind ret gets modify];
    repeat (progress (cbn; rewrite ?Hf, ?H1, ?H2));
    eexists; split; reflexivity.
Qed.

Lemma create_database_swallows_migration_failure_witness :
  let e := mk_Env Sample.clock (fun n => Nat.eqb n 1) (fun _ => Refused)
                  None Sample.matrix in
  exists w',
    create_database (Sample.world e Sample.btc_eth) = (Ok tt, w') /\
    durable w' = Sample.btc_eth.
Proof.
  cbv zeta.
  apply (create_database_swallows_migration_failure
           (Sample.world
              (mk_Env Sample.clock (fun n => Nat.eqb n 1) (fun _ => Refused)
                      None Sample.matrix)
              Sample.btc_eth)).
  - reflexivity.
  - reflexivity.
Defined.

(** [prune_scout_history] removes exactly the scout records whose
    timestamp is strictly older than the reading of the clock minus the
    configured hours; the records kept stay in order, a record without a
    timestamp is kept, and no other table changes. *)
Theorem prune_scout_history_keeps_window (prune_time : nat) (w : World) :
  session_idle w -> no_faults w ->
  let time_diff :=
    Nat.iter prune_time prev_hour (wall_clock (env w) (clock_reads w)) in
  exists w',
    prune_scout_history prune_time w = (Ok tt, w') /\
    durable w'
    = with_scout_history
        (filter (fun r => negb (scout_expired time_diff r))) (durable w) /\
    (forall r,
       In r (scout_history (durable w')) <->
       In r (scout_history (durable w)) /\
       match sh_datetime r with
       | Some d => dt_ltb d time_diff = false
       | None => True
       end).
Proof.
  intros Hs Hf. cbv zeta.
  destruct w as [d ss rm cs cl tr cr io ca e].
  unfold session_idle, no_faults in *. cbn in Hs, Hf. subst ss.
  apply returns_unit. unfold prune_scout_history. py.
  split; [reflexivity |].
  intros r. cbn [scout_history with_scout_history].
  rewrite filter_In, negb_true_iff. unfold scout_expired.
  destruct (sh_datetime r); tauto.
Qed.

Lemma prune_scout_history_keeps_window_witness :
  let row id h :=
    mk_ScoutHistory id (Some 1) None None None None
                    (Some (mk_datetime 2024 5 17 h 30 0 0)) in
  exists w',
    prune_scout_history 2
      (Sample.world Sample.env_offline
         (with_scout_history (fun _ => [row 1 7; row 2 9]) Sample.btc_eth))
    = (Ok tt, w') /\
    map sh_id (scout_history (durable w')) = [2].
Proof.
  cbv zeta.
  destruct (prune_scout_history_keeps_window 2
              (Sample.world Sample.env_offline
                 (with_scout_history (fun _ =>
                    [mk_ScoutHistory 1 (Some 1) None None None None
                                     (Some (mk_datetime 2024 5 17 7 30 0 0));
                     mk_ScoutHistory 2 (Some 1) None None None None
                                     (Some (mk_datetime 2024 5 17 9 30 0 0))])
                    Sample.btc_eth)))
    as (w' & Hrun & Hd & _).
  - reflexivity.
  - intros n. reflexivity.
  - exists w'. split; [exact Hrun |]. rewrite Hd. reflexivity.
Defined.

(* ===================================================================== *)
(** ** Value samples in batches *)
(* ===================================================================== *)

Lemma insert_coin_values_spec mks tbl :
  (forall mk id, In mk mks -> cv_id (mk id) = id) ->
  exists new,
    insert_coin_values mks tbl = tbl ++ new /\
    Forall2 (fun (mk : Z -> CoinValue) r => exists id, r = mk id) mks new /\
    (NoDup (map cv_id tbl) -> NoDup (map cv_id (tbl ++ new))).
Proof.
  unfold insert_coin_values. revert tbl.
  induction mks as [| mk mks IH]; intros tbl Hid; cbn [fold_left].
  - exists []. rewrite app_nil_r. repeat split; [constructor | auto].
  - destruct (IH (tbl ++ [mk (next_rowid (map cv_id tbl))]))
      as (new & Heq & Hall & Hnd).
    { intros mk' id Hin. apply Hid. now right. }
    exists (mk (next_rowid (map cv_id tbl)) :: new). split; [| split].
    + rewrite Heq, <- app_assoc. reflexivity.
    + constructor; [now eexists | exact Hall].
    + intros Htbl. rewrite <- app_assoc in Hnd. apply Hnd.
      rewrite map_app. cbn [map]. rewrite Hid by now left.
      apply NoDup_app; [exact Htbl | repeat constructor; intros [] |].
      intros x Hx [<- | []]. exact (next_rowid_fresh _ Hx).
Qed.

Lemma coin_value_batch_some cv_batch :
  Forall (fun cv => cvo_coin cv <> None) cv_batch ->
  exists rows,
    coin_value_batch cv_batch = Some rows /\
    Forall2 (fun cv mk => coin_value_params cv = Some mk) cv_batch rows.
Proof.
  induction 1 as [| cv l Hcv _ (rows & Hrows & Hall)]; cbn [coin_value_batch].
  - exists []. split; [reflexivity | constructor].
  - unfold coin_value_params at 1.
    destruct (cvo_coin cv) as [c |] eqn:Hc; [| now elim Hcv].
    rewrite Hrows. eexists. split; [reflexivity |].
    constructor; [| exact Hall]. unfold coin_value_params. now rewrite Hc.
Qed.

(** The stored form of a value sample under the key [id]. *)
Definition stored_value (cv : CoinValueObj) (id : Z) (r : CoinValue) : Prop :=
  exists c,
    cvo_coin cv = Some c /\
    r = mk_CoinValue id (coin_symbol c) (cvo_balance cv) (cvo_usd_price cv)
                     (cvo_btc_price cv) (cvo_interval cv) (cvo_datetime cv).

(** [batch_update_coin_values] on a batch that is not empty appends one
    row per value, in the order of the batch, each with the symbol of the
    value's coin and the value's balance, prices, tag and timestamp; the
    rows already stored are untouched, and if their keys were distinct the
    keys still are. *)
Theorem batch_update_coin_values_appends (default_row : option CoinValue)
    (cv_batch : list CoinValueObj) (w : World) :
  session_idle w -> no_faults w ->
  cv_batch <> [] ->
  Forall (fun cv => cvo_coin cv <> None) cv_batch ->
  exists w' new,
    batch_update_coin_values default_row cv_batch w = (Ok tt, w') /\
    durable w' = with_coin_values (fun l => l ++ new) (durable w) /\
    Forall2 (fun cv r => exists id, stored_value cv id r) cv_batch new /\
    (NoDup (map cv_id (coin_values (durable w))) ->
     NoDup (map cv_id (coin_values (durable w')))).
Proof.
  intros Hs Hf Hne Hcoins.
  destruct (coin_value_batch_some cv_batch Hcoins) as (rows & Hrows & Hall).
  assert (Hids : forall mk id, In mk rows -> cv_id (mk id) = id).
  { intros mk id Hin. clear Hrows Hne Hcoins.
    induction Hall as [| cv mk' l rows Hp _ IH]; [destruct Hin |].
    destruct Hin as [<- | Hin]; [| now apply IH].
    unfold coin_value_params in Hp. destruct (cvo_coin cv); [| discriminate].
    injection Hp as <-. reflexivity. }
  destruct w as [d ss rm cs cl tr cr io ca e].
  unfold session_idle, no_faults in *. cbn in Hs, Hf. subst ss.
  destruct (insert_coin_values_spec rows (coin_values d) Hids)
    as (new & Heq & Hnew & Hnd).
  enough (H : returns (batch_update_coin_values default_row cv_batch)
                {| durable := d; session := fresh_session;
                   ratios_manager := rm; coin_stubs := cs; client := cl;
                   trace := tr; clock_reads := cr; io_count := io;
                   connect_attempts := ca; env := e |}
                (fun _ w' =>
                   durable w'
                   = with_coin_values (insert_coin_values rows) d)).
  { destruct H as ([] & w' & Hrun & Hd). exists w', new.
    split; [exact Hrun |].
    split; [rewrite Hd; unfold with_coin_values; now rewrite Heq |].
    split.
    - clear -Hall Hnew. revert new Hnew.
      induction Hall as [| cv mk l rows Hp _ IH]; intros new Hnew.
      + inversion Hnew. constructor.
      + inversion Hnew as [| ? r ? new' [id Hr] Hrest]. subst.
        constructor; [| now apply IH].
        exists id. unfold coin_value_params in Hp.
        destruct (cvo_coin cv) as [c |] eqn:Hc; [| discriminate].
        injection Hp as <-. exists c. split; [exact Hc | reflexivity].
    - intros Hold. rewrite Hd. cbn [coin_values with_coin_values].
      rewrite Heq. now apply Hnd. }
  unfold batch_update_coin_values. rewrite Hrows.
  destruct rows as [| mk rows].
  - inversion Hall. subst. now elim Hne.
  - py. reflexivity.
Qed.

Lemma batch_update_coin_values_appends_witness :
  let cv := mk_CoinValueObj (Some (mk_Coin "ETH" true)) 1%float 2%float
                            3%float MINUTELY (mk_datetime 2024 5 17 9 0 0 0) in
  exists w' new,
    batch_update_coin_values None [cv; cv]
      (Sample.world Sample.env_offline Sample.history) = (Ok tt, w') /\
    durable w' = with_coin_values (fun l => l ++ new) Sample.history /\
    List.length new = 2%nat.
Proof.
  cbv zeta.
  destruct (batch_update_coin_values_appends None
              [mk_CoinValueObj (Some (mk_Coin "ETH" true)) 1%float 2%float
                               3%float MINUTELY (mk_datetime 2024 5 17 9 0 0 0);
               mk_CoinValueObj (Some (mk_Coin "ETH" true)) 1%float 2%float
                               3%float MINUTELY (mk_datetime 2024 5 17 9 0 0 0)]
              (Sample.world Sample.env_offline Sample.history))
    as (w' & new & Hrun & Hd & Hall & _).
  - reflexivity.
  - intros n. reflexivity.
  - discriminate.
  - repeat constructor; discriminate.
  - exists w', new. split; [exact Hrun |]. split; [exact Hd |].
    symmetry. exact (Forall2_length Hall).
Defined.

(** A value whose [coin] is unset makes [batch_update_coin_values] raise
    [AttributeError] while the parameter list is built: nothing is sent to
    the store and the world is left exactly as it was. *)
Theorem batch_update_coin_values_missing_coin (default_row : option CoinValue)
    (cv_batch : list CoinValueObj) (w : World) :
  Exists (fun cv => cvo_coin cv = None) cv_batch ->
  batch_update_coin_values default_row cv_batch w = (Raise AttributeError, w).
Proof.
  intros Hex.
  assert (Hnone : coin_value_batch cv_batch = None).
  { induction Hex as [cv l Hcv | cv l _ IH]; cbn [coin_value_batch].
    - unfold coin_value_params. now rewrite Hcv.
    - destruct (coin_value_params cv); [| reflexivity]. now rewrite IH. }
  unfold batch_update_coin_values. rewrite Hnone. reflexivity.
Qed.

Lemma batch_update_coin_values_missing_coin_witness :
  batch_update_coin_values None
    [mk_CoinValueObj None 1%float 2%float 3%float MINUTELY
                     (mk_datetime 2024 5 17 9 0 0 0)]
    (Sample.world Sample.env_offline Sample.history)
  = (Raise AttributeError, Sample.world Sample.env_offline Sample.history).
Proof.
  apply batch_update_coin_values_missing_coin. now left.
Defined.

(* ===================================================================== *)
(** ** Pair lookup *)
(* ===================================================================== *)

(** A pair row from the asset [s] to the asset [t]. *)
Definition pair_between (s t : string) (p : Pair) : bool :=
  String.eqb (pair_from_coin_id p) s && String.eqb (pair_to_coin_id p) t.

(** [get_coin] as a step of a longer run: the coin designated, the store
    untouched, the session closed again. *)
Lemma returns_get_coin coin d rm cs cl tr cr io ca e
    (Q : Coin -> World -> Prop) :
  (forall n, fault_at e n = false) ->
  coin_arg_known coin d ->
  (forall c tr' io',
     coin_symbol c = coin_arg_symbol coin ->
     Q c (mk_World d fresh_session rm cs cl tr' cr io' ca e)) ->
  returns (get_coin coin)
          (mk_World d fresh_session rm cs cl tr cr io ca e) Q.
Proof.
  intros Hf Hk HQ. unfold get_coin. destruct coin as [c | s].
  - py. now apply HQ.
  - cbn in Hk. destruct (find_coin s d) as [c |] eqn:Hfind; [| now elim Hk].
    pose proof (find_coin_symbol _ _ _ Hfind) as Hsym.
    py. rewrite Hfind. py.
    apply returns_session_expunge.
    { cbn. now rewrite String.eqb_refl. }
    py. now apply HQ.
Qed.

(** [get_pair] returns the first stored pair from the one asset to the
    other, detached; the store is unchanged and the session closed. *)
Theorem get_pair_returns_stored_pair (from_coin to_coin : CoinArg)
    (p : Pair) (w : World) :
  session_idle w -> no_faults w ->
  coin_arg_known from_coin (durable w) ->
  coin_arg_known to_coin (durable w) ->
  find (pair_between (coin_arg_symbol from_coin) (coin_arg_symbol to_coin))
       (pairs (durable w)) = Some p ->
  exists w',
    get_pair from_coin to_coin w = (Ok p, w') /\
    durable w' = durable w /\
    session_idle w'.
Proof.
  intros Hs Hf Hk1 Hk2 Hfind.
  destruct w as [d ss rm cs cl tr cr io ca e].
  unfold session_idle, no_faults in *. cbn in Hs, Hf, Hk1, Hk2, Hfind.
  subst ss.
  enough (H : returns (get_pair from_coin to_coin)
                {| durable := d; session := fresh_session;
                   ratios_manager := rm; coin_stubs := cs; client := cl;
                   trace := tr; clock_reads := cr; io_count := io;
                   connect_attempts := ca; env := e |}
                (fun p' w' =>
                   p' = p /\ durable w' = d /\ session w' = fresh_session)).
  { destruct H as (p' & w' & Hrun & -> & Hd & Hi). now exists w'. }
  unfold get_pair. apply returns_bind.
  apply returns_get_coin; [exact Hf | exact Hk1 |].
  intros a tr1 io1 Ha. apply returns_bind.
  apply returns_get_coin; [exact Hf | exact Hk2 |].
  intros b tr2 io2 Hb. py.
  unfold pair_matches. rewrite Ha, Hb.
  change (find (fun p0 => String.eqb (pair_from_coin_id p0)
                            (coin_arg_symbol from_coin) &&
                          String.eqb (pair_to_coin_id p0)
                            (coin_arg_symbol to_coin)) (pairs d))
    with (find (pair_between (coin_arg_symbol from_coin)
                             (coin_arg_symbol to_coin)) (pairs d)).
  rewrite Hfind. destruct (pair_id p) as [i |] eqn:Hi.
  - unfold opt_ids. cbn [flat_map]. rewrite Hi. cbn [app map for_each].
    py. apply returns_session_expunge.
    { cbn. now rewrite Z.eqb_refl. }
    py. repeat split; reflexivity.
  - unfold opt_ids. cbn [flat_map]. rewrite Hi. cbn [app map for_each].
    py. repeat split; reflexivity.
Qed.

Lemma get_pair_returns_stored_pair_witness :
  exists w',
    get_pair (CoinSymbol "ETH") (CoinObj (mk_Coin "BTC" true))
             (Sample.world Sample.env_offline Sample.btc_eth)
    = (Ok (mk_Pair (Some 2) "ETH" "BTC" None true), w') /\
    session_idle w'.
Proof.
  destruct (get_pair_returns_stored_pair
              (CoinSymbol "ETH") (CoinObj (mk_Coin "BTC" true))
              (mk_Pair (Some 2) "ETH" "BTC" None true)
              (Sample.world Sample.env_offline Sample.btc_eth))
    as (w' & Hrun & _ & Hidle).
  - reflexivity.
  - intros n. reflexivity.
  - discriminate.
  - exact I.
  - reflexivity.
  - exists w'. split; [exact Hrun | exact Hidle].
Defined.
